(** * The realtime control gateway of music_assistant/web.py

    A shallow embedding of the three command surfaces of [Web]
    ([player_command], [websocket_handler], [json_rpc]) as computations in a
    state / exception / trace monad, and the properties of the dispatch and
    of the websocket session life cycle that follow from the code.

    The collaborators that web.py only calls (the player registry, the
    player objects, the event-listener registry of [mass], the aiohttp
    websocket) are parameters of the development, gathered in [Env]. *)

From Stdlib Require Import String Ascii List Bool Arith Lia.
From Stdlib Require Import Permutation Sorted ZArith.
Import ListNotations.
Local Open Scope string_scope.
Local Open Scope list_scope.

Set Implicit Arguments.

(** ** Python strings

    Strings are byte strings; every separator and keyword the handlers look
    for is plain ASCII, so splitting and searching bytes agrees with Python's
    operations on the decoded text. *)

Module PyStr.

(** [s.startswith(p)] *)
Definition startswith (s p : string) : bool := String.prefix p s.

(** [sub in s] *)
Fixpoint contains (sub s : string) : bool :=
  String.prefix sub s ||
  match s with
  | EmptyString => false
  | String _ s' => contains sub s'
  end.

(** [s.split(sep)] for a one-character separator: never the empty list. *)
Fixpoint split (sep : ascii) (s : string) : list string :=
  match s with
  | EmptyString => [EmptyString]
  | String c s' =>
      if Ascii.eqb c sep then EmptyString :: split sep s'
      else match split sep s' with
           | [] => [String c EmptyString]
           | tok :: toks => String c tok :: toks
           end
  end.

(** [sep.join(words)] *)
Definition join (sep : string) (words : list string) : string :=
  String.concat sep words.

(** truth value of a string: non-empty *)
Definition nonempty (s : string) : bool :=
  match s with EmptyString => false | String _ _ => true end.

End PyStr.

(** ** Python values and exceptions *)

Inductive pyval :=
| PNone
| PBool (b : bool)
| PStr (s : string)
| PInt (n : nat).

Inductive exn :=
| AttributeError
| IndexError
| TypeError
| ValueError
| CancelledError
| ConnectionError.

Inductive res (A : Type) :=
| Ok (a : A)
| Raise (e : exn).
Arguments Ok {A} a.
Arguments Raise {A} e.

(** [xs[i]] *)
Definition index {A} (xs : list A) (i : nat) : res A :=
  match nth_error xs i with
  | Some x => Ok x
  | None => Raise IndexError
  end.

(** ** Requests *)

(** [request.match_info] of the two routes
    [/api/players/{player_id}/cmd/{cmd}] and [.../{cmd}/{cmd_args}]. *)
Record cmd_request := {
  mi_player_id : string;
  mi_cmd : string;
  mi_cmd_args : option string
}.

(** The decoded body of a jsonrpc.js request: [params[0]] is the player id and
    [params[1]] the list of words; [rpc_repr] is the body as the debug line
    prints it. *)
Record rpc_request := {
  rpc_repr : string;
  rpc_player_id : string;
  rpc_cmds : list string
}.

Inductive WSMsgType := TEXT | BINARY | PING | PONG | ERROR.

(** What [async for msg in ws] yields next: a message, or an exception raised
    out of the receive (cancellation, transport failure).  The end of the list
    is the end of the iteration: the peer closed. *)
Inductive ws_in :=
| WsMsg (type : WSMsgType) (data : string)
| WsRaise (e : exn).

Inductive response :=
| JsonResponse (body : pyval)
| TextResponse (text : string).

(** What the token stream of one text frame stands for (lines 241-251). *)
Inductive frame :=
| ListTargets
| Command (targetId name : string) (argument : option string)
| NotACommand.

Definition is_TEXT (t : WSMsgType) : bool :=
  match t with TEXT => true | _ => false end.

(** lines 241-251 of [websocket_handler], up to the first await: what the
    frame is and, for a command, its three parts.  Indexing the token list
    raises as Python does. *)
Definition parse_frame (data : string) : res frame :=
  if data =? "players" then Ok ListTargets
  else if PyStr.startswith data "players" && PyStr.contains "/cmd/" data then
    let msg_data_parts := PyStr.split "/"%char data in
    match index msg_data_parts 1 with
    | Raise e => Raise e
    | Ok player_id =>
        match index msg_data_parts 3 with
        | Raise e => Raise e
        | Ok cmd =>
            let cmd_args :=
              if Nat.eqb (length msg_data_parts) 5 then nth_error msg_data_parts 4
              else None in
            Ok (Command player_id cmd cmd_args)
        end
    end
  else Ok NotACommand.

(** ** The gateway over its collaborators *)

Section Gateway.

(** State of everything outside web.py. *)
Variable World : Type.
(** Player objects, truthy attribute values of objects, listener ids. *)
Variable Player : Type.
Variable Attr : Type.
Variable CbId : Type.

Inductive details :=
| DPlayers (players : list Player)
| DValue (v : pyval).

Record ws_msg := {
  message : string;
  message_details : details
}.

(** The collaborators.  Every awaited call may return or raise and may
    change the world. *)
Record Env := {
  (** [mass.players.get_player(player_id)] *)
  get_player : string -> World -> res (option Player) * World;
  (** [mass.players.players] *)
  players : World -> list Player;
  (** [player.name] *)
  name : Player -> string;
  (** the attribute of a player object of that name, if it has one *)
  player_attr : World -> Player -> string -> option Attr;
  (** the attribute of the object [None] of that name, if it has one *)
  none_attr : string -> option Attr;
  (** truth value of an attribute value *)
  truthy : Attr -> bool;
  (** [await f(args...)] *)
  call : Attr -> list pyval -> World -> res pyval * World;
  (** [ws.prepare(request)] *)
  ws_prepare : World -> res unit * World;
  (** [ws.send_json(ws_msg)] *)
  ws_send_json : ws_msg -> World -> res unit * World;
  (** [mass.add_event_listener(send_event)] *)
  add_event_listener : World -> res CbId * World;
  (** [mass.remove_event_listener(cb_id)] *)
  remove_event_listener : option CbId -> World -> res unit * World
}.

(** What a handler does to the outside, in order. *)
Inductive event :=
| EvPrepare
| EvAddListener
| EvRemoveListener (cb_id : option CbId)
| EvGetPlayer (player_id : string)
| EvCall (target : option Player) (name : string) (args : list pyval)
| EvSendJson (msg : ws_msg)
| EvLogError (text : string)
| EvLogDebug (text : string).

Variable E : Env.

(** *** The monad: local variables [L], the world, exceptions, a trace *)

Definition M (L A : Type) : Type :=
  L * World -> res A * (L * World) * list event.

Definition ret {L A} (a : A) : M L A := fun s => (Ok a, s, []).

Definition raise {L A} (e : exn) : M L A := fun s => (Raise e, s, []).

Definition bind {L A B} (m : M L A) (k : A -> M L B) : M L B :=
  fun s =>
    match m s with
    | (Ok a, s1, t1) =>
        match k a s1 with
        | (r, s2, t2) => (r, s2, t1 ++ t2)
        end
    | (Raise e, s1, t1) => (Raise e, s1, t1)
    end.

(** [try: body finally: fin]: [fin] always runs; what it raises replaces
    the outcome of [body]. *)
Definition try_finally {L A} (body : M L A) (fin : M L unit) : M L A :=
  fun s =>
    match body s with
    | (r, s1, t1) =>
        match fin s1 with
        | (Ok _, s2, t2) => (r, s2, t1 ++ t2)
        | (Raise e, s2, t2) => (Raise e, s2, t1 ++ t2)
        end
    end.

(** an awaited call on a collaborator *)
Definition ext {L A} (ev : event) (op : World -> res A * World) : M L A :=
  fun s =>
    match op (snd s) with
    | (r, w) => (r, (fst s, w), [ev])
    end.

Definition ask {L A} (f : World -> A) : M L A :=
  fun s => (Ok (f (snd s)), s, []).

Definition emit {L} (ev : event) : M L unit := fun s => (Ok tt, s, [ev]).

Definition get_local {L} : M L L := fun s => (Ok (fst s), s, []).

Definition set_local {L} (l : L) : M L unit :=
  fun s => (Ok tt, (l, snd s), []).

Definition lift {L A} (r : res A) : M L A :=
  match r with Ok a => ret a | Raise e => raise e end.

Declare Scope gw_scope.
Delimit Scope gw_scope with gw.
Notation "x <- m ;; k" := (bind m (fun x => k))
  (at level 100, m at next level, right associativity) : gw_scope.
Notation "m ;; k" := (bind m (fun _ => k))
  (at level 100, right associativity) : gw_scope.
Local Open Scope gw_scope.

(** *** The calls web.py makes *)

Definition LOGGER_error {L} (text : string) : M L unit :=
  emit (EvLogError text).

Definition LOGGER_debug {L} (text : string) : M L unit :=
  emit (EvLogDebug text).

Definition await_get_player {L} (player_id : string) : M L (option Player) :=
  ext (EvGetPlayer player_id) (get_player E player_id).

(** the attribute [attr] of [obj], if it has one *)
Definition attr_of (w : World) (obj : option Player) (attr : string)
  : option Attr :=
  match obj with
  | Some p => player_attr E w p attr
  | None => none_attr E attr
  end.

(** [getattr(obj, attr, None)] as the [if] that follows reads it: the
    attribute when there is one and it is truthy. *)
Definition capability (w : World) (obj : option Player) (attr : string)
  : option Attr :=
  match attr_of w obj attr with
  | Some a => if truthy E a then Some a else None
  | None => None
  end.

Definition getattr_truthy {L} (obj : option Player) (attr : string)
  : M L (option Attr) :=
  ask (fun w => capability w obj attr).

(** [obj.attr] *)
Definition dot {L} (obj : option Player) (attr : string) : M L Attr :=
  f <- ask (fun w => attr_of w obj attr) ;;
  match f with
  | Some a => ret a
  | None => raise AttributeError
  end.

(** [await f(args...)], [f] being the attribute [attr] of [obj] *)
Definition await_call {L} (obj : option Player) (attr : string) (f : Attr)
  (args : list pyval) : M L pyval :=
  ext (EvCall obj attr args) (call E f args).

Definition await_send_json {L} (msg : ws_msg) : M L unit :=
  ext (EvSendJson msg) (ws_send_json E msg).

(** [players.sort(key=lambda x: x.name)]: a stable sort on the names. *)
Fixpoint insert_by_name (p : Player) (ps : list Player) : list Player :=
  match ps with
  | [] => [p]
  | q :: ps' =>
      if String.leb (name E p) (name E q) then p :: q :: ps'
      else q :: insert_by_name p ps'
  end.

Definition sort_by_name (ps : list Player) : list Player :=
  fold_right insert_by_name [] ps.

(** *** [Web.player_command], lines 176-193

    [result] starts as [False] and is what the response carries.  A player
    object counts as true in [if player], [None] as false. *)

Definition player_command {L} (request : cmd_request) : M L response :=
  let player_id := mi_player_id request in
  player <- await_get_player player_id ;;
  result <-
    match player with
    | Some p =>
        let cmd := mi_cmd request in
        let cmd_args := mi_cmd_args request in
        player_cmd <- getattr_truthy (Some p) cmd ;;
        match player_cmd, cmd_args with
        | Some f, Some a => await_call (Some p) cmd f [PStr a]
        | Some f, None => await_call (Some p) cmd f []
        | None, _ =>
            LOGGER_error ("Received non-existing command " ++ cmd
                          ++ " for player " ++ name E p) ;;
            ret (PBool false)
        end
    | None =>
        LOGGER_error ("Received command for non-existing player "
                      ++ player_id) ;;
        ret (PBool false)
    end ;;
  ret (JsonResponse result).

(** *** [Web.websocket_handler], lines 224-261 *)

(** the callback handed to the listener registry, lines 232-234 *)
Definition send_event {L} (msg : string) (msg_details : details) : M L unit :=
  await_send_json {| message := msg; message_details := msg_details |}.

(** lines 252-257 *)
Definition ws_command {L} (player_id cmd : string) (cmd_args : option string)
  : M L unit :=
  player <- await_get_player player_id ;;
  player_cmd <- getattr_truthy player cmd ;;
  match player_cmd with
  | Some f =>
      match cmd_args with
      | Some a =>
          if PyStr.nonempty a then
            await_call player cmd f [PStr a] ;; ret tt
          else
            await_call player cmd f [] ;; ret tt
      | None => await_call player cmd f [] ;; ret tt
      end
  | None => ret tt
  end.

(** the body of the loop for a text frame, lines 241-257 *)
Definition on_text {L} (data : string) : M L unit :=
  fr <- lift (parse_frame data) ;;
  match fr with
  | ListTargets =>
      ps <- ask (players E) ;;
      await_send_json {| message := "players";
                         message_details := DPlayers (sort_by_name ps) |}
  | Command player_id cmd cmd_args => ws_command player_id cmd cmd_args
  | NotACommand => ret tt
  end.

(** [async for msg in ws: ...], lines 237-257 *)
Fixpoint ws_loop {L} (msgs : list ws_in) : M L unit :=
  match msgs with
  | [] => ret tt
  | WsRaise e :: _ => raise e
  | WsMsg type data :: rest =>
      if is_TEXT type then on_text data ;; ws_loop rest
      else ws_loop rest
  end.

(** The one local the [finally] clause reads is [cb_id]; it starts as
    [None] (line 226).  Creating the response object [ws] does nothing to
    the outside; the handshake is [ws.prepare]. *)
Definition websocket_handler (msgs : list ws_in) : M (option CbId) unit :=
  try_finally
    (ext EvPrepare (ws_prepare E) ;;
     cb_id <- ext EvAddListener (add_event_listener E) ;;
     set_local (Some cb_id) ;;
     ws_loop msgs)
    (cb_id <- get_local ;;
     ext (EvRemoveListener cb_id) (remove_event_listener E cb_id)) ;;
  LOGGER_debug "websocket connection closed".

(** *** [Web.json_rpc], lines 284-328 *)

Definition success {L} : M L response := ret (TextResponse "success").

(** [await obj.attr(args...)]: the attribute is looked up first, then the
    arguments are evaluated, then the call is made and awaited. *)
Definition await_method {L} (obj : option Player) (attr : string)
  (args : res (list pyval)) : M L pyval :=
  f <- dot obj attr ;;
  a <- lift args ;;
  await_call obj attr f a.

Definition json_rpc {L} (request : rpc_request) : M L response :=
  LOGGER_debug ("jsonrpc: " ++ rpc_repr request) ;;
  let player_id := rpc_player_id request in
  let cmds := rpc_cmds request in
  let cmd_str := PyStr.join " " cmds in
  player <- await_get_player player_id ;;
  if cmd_str =? "play" then
    await_method player "play" (Ok []) ;; success
  else if cmd_str =? "pause" then
    await_method player "pause" (Ok []) ;; success
  else if cmd_str =? "stop" then
    await_method player "stop" (Ok []) ;; success
  else if cmd_str =? "next" then
    await_method player "next" (Ok []) ;; success
  else if cmd_str =? "previous" then
    await_method player "previous" (Ok []) ;; success
  else if PyStr.contains "power" cmd_str then
    let args := match nth_error cmds 1 with
                | Some w => PStr w
                | None => PNone
                end in
    await_method player "power" (Ok [args]) ;; success
  else if cmd_str =? "playlist index +1" then
    await_method player "next" (Ok []) ;; success
  else if cmd_str =? "playlist index -1" then
    await_method player "previous" (Ok []) ;; success
  else if PyStr.contains "mixer volume" cmd_str then
    await_method player "volume_set"
      (match index cmds 2 with
       | Ok a => Ok [PStr a]
       | Raise e => Raise e
       end) ;; success
  else if cmd_str =? "mixer muting 1" then
    await_method player "volume_mute" (Ok [PBool true]) ;; success
  else if cmd_str =? "mixer muting 0" then
    await_method player "volume_mute" (Ok [PBool false]) ;; success
  else if cmd_str =? "button volup" then
    await_method player "volume_up" (Ok []) ;; success
  else if cmd_str =? "button voldown" then
    await_method player "volume_down" (Ok []) ;; success
  else if cmd_str =? "button power" then
    await_method player "power_toggle" (Ok []) ;; success
  else ret (TextResponse "command not supported").

End Gateway.

Arguments ret {World Player CbId L A} a.
Arguments raise {World Player CbId L A} e.
Arguments bind {World Player CbId L A B} m k.
Arguments try_finally {World Player CbId L A} body fin.
Arguments ext {World Player CbId L A} ev op.
Arguments ask {World Player CbId L A} f.
Arguments emit {World Player CbId L} ev.
Arguments get_local {World Player CbId L}.
Arguments set_local {World Player CbId L} l.
Arguments lift {World Player CbId L A} r.
Arguments success {World Player CbId L}.

Arguments EvPrepare {Player CbId}.
Arguments EvAddListener {Player CbId}.
Arguments EvRemoveListener {Player CbId} cb_id.
Arguments EvGetPlayer {Player CbId} player_id.
Arguments EvCall {Player CbId} target name args.
Arguments EvSendJson {Player CbId} msg.
Arguments EvLogError {Player CbId} text.
Arguments EvLogDebug {Player CbId} text.

(** ** Reading an outcome and its trace *)

Section Observations.

Context {Player CbId : Type}.

Definition result_of {A S} (o : res A * S * list (event Player CbId))
  : res A := fst (fst o).

Definition state_of {A S} (o : res A * S * list (event Player CbId))
  : S := snd (fst o).

Definition trace_of {A S} (o : res A * S * list (event Player CbId))
  : list (event Player CbId) := snd o.

(** the ids [remove_event_listener] was called with, in order *)
Definition unregister_calls (tr : list (event Player CbId))
  : list (option CbId) :=
  flat_map (fun ev => match ev with
                      | EvRemoveListener cb => [cb]
                      | _ => []
                      end) tr.

(** the invocations of attributes of player objects, in order *)
Definition capability_calls (tr : list (event Player CbId))
  : list (Player * string * list pyval) :=
  flat_map (fun ev => match ev with
                      | EvCall (Some p) n args => [(p, n, args)]
                      | _ => []
                      end) tr.

(** every invocation, of whatever object the attribute was found on *)
Definition all_calls (tr : list (event Player CbId))
  : list (option Player * string * list pyval) :=
  flat_map (fun ev => match ev with
                      | EvCall o n args => [(o, n, args)]
                      | _ => []
                      end) tr.

(** the texts logged at error level, in order *)
Definition diagnostics (tr : list (event Player CbId)) : list string :=
  flat_map (fun ev => match ev with
                      | EvLogError text => [text]
                      | _ => []
                      end) tr.

(** what was written to the websocket, in order *)
Definition sent (tr : list (event Player CbId)) : list (ws_msg Player) :=
  flat_map (fun ev => match ev with
                      | EvSendJson m => [m]
                      | _ => []
                      end) tr.

End Observations.

(** ** Trace invariants of computations *)

Section Invariants.

Variables World Player CbId : Type.

(** every event a computation emits satisfies [P], from any state *)
Definition emits_only {L A} (P : event Player CbId -> Prop)
  (m : M World Player CbId L A) : Prop :=
  forall s, Forall P (trace_of (m s)).

(** a computation leaves the local variables as they are *)
Definition keeps_locals {L A} (m : M World Player CbId L A) : Prop :=
  forall s, fst (state_of (m s)) = fst s.

(** the events the handling of a frame can emit *)
Definition frame_event (ev : event Player CbId) : Prop :=
  match ev with
  | EvGetPlayer _ | EvCall _ _ _ | EvSendJson _ => True
  | _ => False
  end.

(** anything but a write to the websocket or an error-level log line *)
Definition silent_event (ev : event Player CbId) : Prop :=
  match ev with
  | EvSendJson _ | EvLogError _ => False
  | _ => True
  end.

(** anything but the invocation of an attribute of a player *)
Definition no_capability (ev : event Player CbId) : Prop :=
  match ev with
  | EvCall (Some _) _ _ => False
  | _ => True
  end.

End Invariants.

(** the id the session holds once the handshake and the registration are
    through, [None] when either raised *)
Definition stored_id {World Player Attr CbId} (E : Env World Player Attr CbId)
  (w : World) : option CbId :=
  match ws_prepare E w with
  | (Ok _, w1) =>
      match add_event_listener E w1 with
      | (Ok cb_id, _) => Some cb_id
      | (Raise _, _) => None
      end
  | (Raise _, _) => None
  end.

(** the arguments [player_command] passes for [cmd_args] *)
Definition rest_args (cmd_args : option string) : list pyval :=
  match cmd_args with
  | Some a => [PStr a]
  | None => []
  end.

(** the arguments [websocket_handler] passes for [cmd_args] *)
Definition frame_args (cmd_args : option string) : list pyval :=
  match cmd_args with
  | Some a => if PyStr.nonempty a then [PStr a] else []
  | None => []
  end.

(** What [json_rpc] does with a word list, read off its chain of tests in
    their order: the method it calls on the player and the arguments it passes
    (or the exception their evaluation raises); [None] when no test matches. *)
Definition phrase_call (cmds : list string)
  : option (string * res (list pyval)) :=
  let cmd_str := PyStr.join " " cmds in
  if cmd_str =? "play" then Some ("play", Ok [])
  else if cmd_str =? "pause" then Some ("pause", Ok [])
  else if cmd_str =? "stop" then Some ("stop", Ok [])
  else if cmd_str =? "next" then Some ("next", Ok [])
  else if cmd_str =? "previous" then Some ("previous", Ok [])
  else if PyStr.contains "power" cmd_str then
    Some ("power", Ok [match nth_error cmds 1 with
                       | Some w => PStr w
                       | None => PNone
                       end])
  else if cmd_str =? "playlist index +1" then Some ("next", Ok [])
  else if cmd_str =? "playlist index -1" then Some ("previous", Ok [])
  else if PyStr.contains "mixer volume" cmd_str then
    Some ("volume_set", match index cmds 2 with
                        | Ok a => Ok [PStr a]
                        | Raise e => Raise e
                        end)
  else if cmd_str =? "mixer muting 1" then Some ("volume_mute", Ok [PBool true])
  else if cmd_str =? "mixer muting 0" then Some ("volume_mute", Ok [PBool false])
  else if cmd_str =? "button volup" then Some ("volume_up", Ok [])
  else if cmd_str =? "button voldown" then Some ("volume_down", Ok [])
  else if cmd_str =? "button power" then Some ("power_toggle", Ok [])
  else None.

(** a phrase [json_rpc] has a branch for *)
Definition recognized (cmds : list string) : bool :=
  match phrase_call cmds with Some _ => true | None => false end.

(** ** A small installation

    One concrete set of collaborators, to run the handlers on: a list of
    players with the methods [json_rpc] calls, a websocket that is up or
    down, and a listener registry. *)

Module Demo.

Record player := {
  player_id : string;
  player_name : string
}.

(** attribute values: a method of a player, the [name] of a player, and
    two attributes of [None] *)
Inductive attr :=
| Method (m : string)
| NameField
| NoneType
| NoneDoc.

Record world := {
  registry : list player;
  link_up : bool;
  listeners : list nat;
  next_id : nat
}.

Definition methods : list string :=
  ["play"; "pause"; "stop"; "next"; "previous"; "power"; "volume_set";
   "volume_mute"; "volume_up"; "volume_down"; "power_toggle"].

Definition find_player (id : string) (w : world) : option player :=
  find (fun p => player_id p =? id) (registry w).

Definition attr_of_player (n : string) : option attr :=
  if n =? "name" then Some NameField
  else if existsb (String.eqb n) methods then Some (Method n)
  else None.

Definition attr_of_none (n : string) : option attr :=
  if n =? "__class__" then Some NoneType
  else if n =? "__doc__" then Some NoneDoc
  else None.

Definition is_digit (c : ascii) : bool :=
  (48 <=? nat_of_ascii c)%nat && (nat_of_ascii c <=? 57)%nat.

Fixpoint all_digits (s : string) : bool :=
  match s with
  | EmptyString => true
  | String c s' => is_digit c && all_digits s'
  end.

(** [await f(args...)]: the methods check their arity as Python does, and
    [volume_set] converts its argument to a number. *)
Definition call_attr (f : attr) (args : list pyval) : res pyval :=
  match f with
  | Method m =>
      if (m =? "power") then
        match args with [_] => Ok (PBool true) | _ => Raise TypeError end
      else if (m =? "volume_set") then
        match args with
        | [PStr a] =>
            if PyStr.nonempty a && all_digits a then Ok (PBool true)
            else Raise ValueError
        | [PInt _] => Ok (PBool true)
        | _ => Raise TypeError
        end
      else if (m =? "volume_mute") then
        match args with
        | [] | [_] => Ok (PBool true)
        | _ => Raise TypeError
        end
      else
        match args with [] => Ok (PBool true) | _ => Raise TypeError end
  | NameField | NoneType | NoneDoc => Raise TypeError
  end.

(** Modelled from the spec: the listener registry of [mass]
    ([add_event_listener] / [remove_event_listener]), which web.py only
    calls.  Registering hands out a fresh id; unregistering removes the
    entry if present and is a no-op on an absent id, [None] included. *)
Definition register (w : world) : res nat * world :=
  (Ok (next_id w),
   {| registry := registry w; link_up := link_up w;
      listeners := next_id w :: listeners w; next_id := S (next_id w) |}).

(** Modelled from the spec: [remove_event_listener] of [mass], the
    unregister of the listener registry. *)
Definition unregister (cb_id : option nat) (w : world) : res unit * world :=
  match cb_id with
  | Some id =>
      (Ok tt,
       {| registry := registry w; link_up := link_up w;
          listeners := filter (fun i => negb (i =? id)%nat) (listeners w);
          next_id := next_id w |})
  | None => (Ok tt, w)
  end.

Definition env : Env world player attr nat := {|
  get_player := fun id w => (Ok (find_player id w), w);
  players := registry;
  name := player_name;
  player_attr := fun _ _ n => attr_of_player n;
  none_attr := attr_of_none;
  truthy := fun f => match f with NoneDoc => false | _ => true end;
  call := fun f args w => (call_attr f args, w);
  ws_prepare := fun w =>
    (if link_up w then Ok tt else Raise ConnectionError, w);
  ws_send_json := fun _ w =>
    (if link_up w then Ok tt else Raise ConnectionError, w);
  add_event_listener := register;
  remove_event_listener := unregister
|}.

Definition p1 : player := {| player_id := "p1"; player_name := "Kitchen" |}.
Definition p2 : player := {| player_id := "p2"; player_name := "Attic" |}.

Definition home : world :=
  {| registry := [p1; p2]; link_up := true; listeners := []; next_id := 0 |}.

Definition offline : world :=
  {| registry := [p1; p2]; link_up := false; listeners := []; next_id := 0 |}.

(** a command frame for a player that is not there *)
Definition ghost_pause : string := "players/ghost/cmd/pause".

(** some error-level line of the trace records [id] *)
Definition diagnosed (id : string) (tr : list (event player nat)) : Prop :=
  exists text, In text (diagnostics tr) /\ PyStr.contains id text = true.

End Demo.


(** ** The other handlers of web.py *)

(** [request.query]: the parameters in the order of the URL; [get] answers
    the first value of a key. *)
Definition query := list (string * string).

Fixpoint query_get (q : query) (key : string) : option string :=
  match q with
  | [] => None
  | (k, v) :: q' => if k =? key then Some v else query_get q' key
  end.

(** [xs[start:stop]] for integers of either sign: an index below zero counts
    from the end, and both ends are clipped to the list. *)
Definition clip (n i : Z) : Z :=
  if (i <? 0)%Z then Z.max (i + n) 0 else Z.min i n.

Definition py_slice {A} (xs : list A) (start stop : Z) : list A :=
  let n := Z.of_nat (length xs) in
  let lo := clip n start in
  let hi := clip n stop in
  firstn (Z.to_nat (hi - lo)) (skipn (Z.to_nat lo) xs).

(** *** [Web.search], lines 143-162: the call it makes on the music library *)

Module Search.

(** the members of [MediaType] that [search] names *)
Inductive MediaType := Artist | Album | Track | Playlist | Radio.

Definition all_media_types : list MediaType :=
  [Artist; Album; Track; Playlist; Radio].

(** the word [search] looks for in [media_types] *)
Definition plural (t : MediaType) : string :=
  match t with
  | Artist => "artists"
  | Album => "albums"
  | Track => "tracks"
  | Playlist => "playlists"
  | Radio => "radios"
  end.

(** [not media_types_query or word in media_types_query] *)
Definition wanted (media_types_query : option string) (word : string) : bool :=
  match media_types_query with
  | None => true
  | Some s => negb (PyStr.nonempty s) || PyStr.contains word s
  end.

Record search_call := {
  searchquery : option string;
  media_types : list MediaType;
  limit : pyval;
  online : pyval
}.

(** the arguments of [self.mass.music.search(...)], whose result is the
    response *)
Definition search (q : query) : search_call :=
  let searchquery := query_get q "query" in
  let media_types_query := query_get q "media_types" in
  let limit := match query_get q "media_id" with
               | Some v => PStr v
               | None => PInt 5
               end in
  let online := match query_get q "online" with
                | Some v => PStr v
                | None => PBool false
                end in
  let media_types := [] in
  let media_types :=
    if wanted media_types_query "artists" then media_types ++ [Artist]
    else media_types in
  let media_types :=
    if wanted media_types_query "albums" then media_types ++ [Album]
    else media_types in
  let media_types :=
    if wanted media_types_query "tracks" then media_types ++ [Track]
    else media_types in
  let media_types :=
    if wanted media_types_query "playlists" then media_types ++ [Playlist]
    else media_types in
  let media_types :=
    if wanted media_types_query "radios" then media_types ++ [Radio]
    else media_types in
  {| searchquery := searchquery; media_types := media_types;
     limit := limit; online := online |}.

End Search.

(** *** [Web.save_config], lines 267-282, on the dictionary [mass.config] *)

Module Config.

(** a dictionary with string keys *)
Definition dict (V : Type) := list (string * V).

Fixpoint dict_get {V} (d : dict V) (key : string) : option V :=
  match d with
  | [] => None
  | (k, v) :: d' => if k =? key then Some v else dict_get d' key
  end.

(** [d[key] = v] *)
Fixpoint dict_set {V} (d : dict V) (key : string) (v : V) : dict V :=
  match d with
  | [] => [(key, v)]
  | (k, v') :: d' =>
      if k =? key then (k, v) :: d' else (k, v') :: dict_set d' key v
  end.

Inductive error :=
| KeyError (key : string)
| Failure (e : exn).

Inductive outcome (A : Type) :=
| Returned (a : A)
| Raised (e : error).
Arguments Returned {A} a.
Arguments Raised {A} e.

Record result := {
  success : bool;
  restart_required : bool;
  settings_changed : bool
}.

Section Store.

(** decoded JSON values, [==] on them and [str] of them *)
Variable Value : Type.
Variable py_eq : Value -> Value -> bool.
Variable str : Value -> string.

Definition config := dict (dict Value).

(** [mass.config.save()]: the exception it raises, if it raises *)
Variable save : config -> option exn.

Inductive event :=
| LogDebug (text : string)
| Save (content : config).

(** [self.mass.config[conf_key][conf_subkey]] *)
Definition lookup (c : config) (conf_key conf_subkey : string)
  : outcome Value :=
  match dict_get c conf_key with
  | None => Raised (KeyError conf_key)
  | Some values =>
      match dict_get values conf_subkey with
      | None => Raised (KeyError conf_subkey)
      | Some v => Returned v
      end
  end.

(** [body] is what [await request.json()] gives. *)
Definition save_config (conf_key conf_subkey : string) (body : res Value)
  (c : config) : outcome result * config * list event :=
  match body with
  | Raise e => (Raised (Failure e), c, [])
  | Ok new_values =>
      let log := LogDebug ("save config called for " ++ conf_key ++ "/"
                           ++ conf_subkey ++ " - new value: "
                           ++ str new_values) in
      match dict_get c conf_key with
      | None => (Raised (KeyError conf_key), c, [log])
      | Some values =>
          match dict_get values conf_subkey with
          | None => (Raised (KeyError conf_subkey), c, [log])
          | Some cur_values =>
              if negb (py_eq cur_values new_values) then
                let c' := dict_set c conf_key
                            (dict_set values conf_subkey new_values) in
                let restart := negb (conf_key =? "player_settings") in
                match save c' with
                | Some e => (Raised (Failure e), c', [log; Save c'])
                | None =>
                    (Returned {| success := true;
                                 restart_required := restart;
                                 settings_changed := true |},
                     c', [log; Save c'])
                end
              else
                (Returned {| success := true; restart_required := false;
                             settings_changed := false |},
                 c, [log])
          end
      end
  end.

(** the contents handed to [save()], in order *)
Definition saves (tr : list event) : list config :=
  flat_map (fun ev => match ev with Save c => [c] | LogDebug _ => [] end) tr.

End Store.

End Config.

(** *** [Web.__init__] and the sites [Web.setup] starts, lines 28-43, 77-83 *)

Module Startup.

(** the entries of the module configuration, [CONFIG_ENTRIES] *)
Record web_config := {
  http_port : Z;
  https_port : Z;
  ssl_certificate : string;
  ssl_key : string;
  cert_fqdn_host : string
}.

(** the defaults of [CONFIG_ENTRIES] *)
Definition defaults : web_config :=
  {| http_port := 8095%Z; https_port := 8096%Z; ssl_certificate := "";
     ssl_key := ""; cert_fqdn_host := "" |}.

Record Web := {
  web_http_port : Z;
  web_https_port : Z;
  (** the value of [ssl_certificate and ssl_key] *)
  _enable_ssl : string;
  web_config_of : web_config
}.

Inductive init :=
| Created (web : Web)
| FileNotFoundError (text : string).

(** [isfile] is [os.path.isfile]. *)
Definition Web_init (isfile : string -> bool) (config : web_config) : init :=
  if PyStr.nonempty (ssl_certificate config)
     && negb (isfile (ssl_certificate config)) then
    FileNotFoundError ("SSL certificate file not found: "
                       ++ ssl_certificate config)
  else if PyStr.nonempty (ssl_key config)
          && negb (isfile (ssl_key config)) then
    FileNotFoundError ("SSL certificate key file not found: "
                       ++ ssl_key config)
  else
    Created {| web_http_port := http_port config;
               web_https_port := https_port config;
               _enable_ssl := if PyStr.nonempty (ssl_certificate config)
                              then ssl_key config
                              else ssl_certificate config;
               web_config_of := config |}.

Inductive site :=
| HttpSite (port : Z)
| HttpsSite (port : Z) (certificate key : string).

(** the sites [setup] starts on [0.0.0.0], in order *)
Definition sites (web : Web) : list site :=
  HttpSite (web_http_port web)
  :: (if PyStr.nonempty (_enable_ssl web)
      then [HttpsSite (web_https_port web)
              (ssl_certificate (web_config_of web))
              (ssl_key (web_config_of web))]
      else []).

End Startup.

(** *** [Web.players] and [Web.player_queue], lines 164-168 and 207-217 *)

Section Listing.

Variables World Player Attr CbId : Type.
Variable E : Env World Player Attr CbId.

(** queue items, [player.queue.items], and [int(text)] *)
Variable Item : Type.
Variable queue_items : World -> Player -> list Item.
Variable py_int : string -> option Z.

(** the body of the response of [Web.players] *)
Definition Web_players {L} : M World Player CbId L (list Player) :=
  bind (ask (players E)) (fun ps => ret (sort_by_name E ps)).

(** [int(request.query.get(key, default))] *)
Definition int_param (q : query) (key : string) (default : Z) : res Z :=
  match query_get q key with
  | None => Ok default
  | Some text =>
      match py_int text with
      | Some n => Ok n
      | None => Raise ValueError
      end
  end.

(** the body of the response of [Web.player_queue]; [None] has no
    attribute [queue]. *)
Definition player_queue {L} (player_id : string) (q : query)
  : M World Player CbId L (list Item) :=
  bind (lift (int_param q "limit" 50)) (fun limit =>
  bind (lift (int_param q "offset" 0)) (fun offset =>
  bind (await_get_player E player_id) (fun player =>
  match player with
  | Some p =>
      bind (ask (fun w => queue_items w p)) (fun items =>
      ret (py_slice items offset limit))
  | None => raise AttributeError
  end))).

End Listing.

(** *** The small installation, continued *)

Module DemoApi.

(** [==] on the values of the installation: as Python has it, [True] and
    [False] are equal to [1] and [0]. *)
Definition py_eq (a b : pyval) : bool :=
  match a, b with
  | PNone, PNone => true
  | PBool x, PBool y => Bool.eqb x y
  | PStr x, PStr y => x =? y
  | PInt x, PInt y => Nat.eqb x y
  | PBool x, PInt y | PInt y, PBool x => Nat.eqb y (if x then 1 else 0)
  | _, _ => false
  end.

Definition str (v : pyval) : string :=
  match v with
  | PNone => "None"
  | PBool true => "True"
  | PBool false => "False"
  | PStr s => s
  | PInt _ => "<int>"
  end.

(** a disk that takes every write, and one that is full *)
Definition disk_ok (c : Config.config pyval) : option exn := None.
Definition disk_full (c : Config.config pyval) : option exn :=
  Some ConnectionError.

Definition settings : Config.config pyval :=
  [("web", [("http_port", PInt 80); ("ssl_key", PStr "")]);
   ("player_settings", [("p1", PStr "Kitchen")])].

(** [int(text)] for plain decimal numerals, with an optional minus sign *)
Fixpoint digits (s : string) (acc : Z) : option Z :=
  match s with
  | EmptyString => Some acc
  | String c s' =>
      if Demo.is_digit c
      then digits s' (10 * acc + Z.of_nat (nat_of_ascii c - 48))%Z
      else None
  end.

Definition py_int (s : string) : option Z :=
  match s with
  | EmptyString => None
  | String "-" (String c s') =>
      option_map Z.opp (digits (String c s') 0)
  | _ => digits s 0
  end.

(** the queue of every player: five tracks *)
Definition queue_items (w : Demo.world) (p : Demo.player) : list nat :=
  [1; 2; 3; 4; 5].

(** the files that exist *)
Definition isfile (path : string) : bool :=
  (path =? "/etc/ssl/cert.pem") || (path =? "/etc/ssl/key.pem").

(** requests and configurations to run the handlers on *)
Definition mute_request : rpc_request :=
  {| rpc_repr := ""; rpc_player_id := "p1";
     rpc_cmds := ["mixer"; "muting"; "1"] |}.

Definition tls_config : Startup.web_config :=
  {| Startup.http_port := 8095; Startup.https_port := 8096;
     Startup.ssl_certificate := "/etc/ssl/cert.pem";
     Startup.ssl_key := "/etc/ssl/key.pem";
     Startup.cert_fqdn_host := "" |}.

Definition broken_config : Startup.web_config :=
  {| Startup.http_port := 8095; Startup.https_port := 8096;
     Startup.ssl_certificate := "/nowhere/cert.pem";
     Startup.ssl_key := "/etc/ssl/key.pem";
     Startup.cert_fqdn_host := "" |}.

Definition saved_settings : Config.config pyval :=
  [("web", [("http_port", PInt 81); ("ssl_key", PStr "")]);
   ("player_settings", [("p1", PStr "Kitchen")])].

Definition port_changed : Config.result :=
  {| Config.success := true; Config.restart_required := true;
     Config.settings_changed := true |}.

Definition port_log : Config.event pyval :=
  @Config.LogDebug pyval "save config called for web/http_port - new value: <int>".

Definition page_query : query := [("limit", "3"); ("offset", "1")].

(** what [Web.__init__] constructs from [tls_config] *)
Definition tls_web : Startup.Web :=
  {| Startup.web_http_port := 8095; Startup.web_https_port := 8096;
     Startup._enable_ssl := "/etc/ssl/key.pem";
     Startup.web_config_of := tls_config |}.

End DemoApi.

(** ** More ways to read a session *)

(** a text frame, or an exception out of the receive *)
Definition is_read (m : ws_in) : bool :=
  match m with
  | WsMsg type _ => is_TEXT type
  | WsRaise _ => true
  end.


(** [c] does not occur in [s] *)
Fixpoint lacks (c : ascii) (s : string) : bool :=
  match s with
  | EmptyString => true
  | String c' s' => negb (Ascii.eqb c' c) && lacks c s'
  end.

(** the methods of a player [json_rpc] has a call of *)
Definition rpc_methods : list string :=
  ["play"; "pause"; "stop"; "next"; "previous"; "power"; "volume_set";
   "volume_mute"; "volume_up"; "volume_down"].

Section SessionEnd.

Variables World Player Attr CbId : Type.
Variable E : Env World Player Attr CbId.

(** How [websocket_handler] ends once the body of its [try] is through with
    outcome [r] in world [w], the local [cb_id] being [cb] and the trace so
    far [t]: the [finally] clause, then the debug line if nothing raised. *)
Definition session_end (cb : option CbId) (r : res unit) (w : World)
  (t : list (event Player CbId))
  : res unit * (option CbId * World) * list (event Player CbId) :=
  match remove_event_listener E cb w with
  | (Ok _, w') =>
      match r with
      | Ok _ =>
          (Ok tt, (cb, w'),
           t ++ [EvRemoveListener cb;
                 EvLogDebug "websocket connection closed"])
      | Raise e => (Raise e, (cb, w'), t ++ [EvRemoveListener cb])
      end
  | (Raise e', w') => (Raise e', (cb, w'), t ++ [EvRemoveListener cb])
  end.

(** the calls of [add_event_listener] in a trace *)
Definition register_calls (tr : list (event Player CbId)) : nat :=
  length (filter (fun ev => match ev with
                            | EvAddListener => true
                            | _ => false
                            end) tr).

(** the player lookups in a trace, in order *)
Definition lookups (tr : list (event Player CbId)) : list string :=
  flat_map (fun ev => match ev with
                      | EvGetPlayer id => [id]
                      | _ => []
                      end) tr.



End SessionEnd.

(** ** Properties of the handlers, for every set of collaborators *)

Section Properties.

Variables World Player Attr CbId : Type.
Variable E : Env World Player Attr CbId.

Local Abbreviation event := (event Player CbId).
Local Abbreviation M := (M World Player CbId).

Ltac unfold_gw :=
  unfold on_text, ws_command, player_command, await_method, getattr_truthy,
    dot, await_call, await_get_player, await_send_json,
    LOGGER_error, LOGGER_debug, success, bind, ret, raise, ext, ask, emit,
    lift, get_local, set_local, try_finally, result_of, state_of, trace_of
    in *.

(** *** Rules for [emits_only] and [keeps_locals] *)

Lemma emits_only_ret L A (P : event -> Prop) (a : A) :
  emits_only P (ret a : M L A).
Proof. intros s. constructor. Qed.

Lemma emits_only_raise L A (P : event -> Prop) (e : exn) :
  emits_only P (raise e : M L A).
Proof. intros s. constructor. Qed.

Lemma emits_only_lift L A (P : event -> Prop) (r : res A) :
  emits_only P (lift r : M L A).
Proof. destruct r; intros s; constructor. Qed.

Lemma emits_only_ask L A (P : event -> Prop) (f : World -> A) :
  emits_only P (ask f : M L A).
Proof. intros s. constructor. Qed.

Lemma emits_only_ext L A (P : event -> Prop) ev
  (op : World -> res A * World) :
  P ev -> emits_only P (ext ev op : M L A).
Proof.
  intros H s. unfold ext, trace_of. destruct (op (snd s)). simpl. auto.
Qed.

Lemma emits_only_bind L A B (P : event -> Prop) (m : M L A) (k : A -> M L B) :
  emits_only P m -> (forall a, emits_only P (k a)) ->
  emits_only P (bind m k).
Proof.
  intros Hm Hk s. specialize (Hm s). unfold bind, trace_of in *.
  destruct (m s) as [[[a|e] s1] t1]; simpl in *; auto.
  specialize (Hk a s1). unfold trace_of in Hk.
  destruct (k a s1) as [[r s2] t2]; simpl in *. apply Forall_app; auto.
Qed.

Lemma keeps_locals_ret L A (a : A) : keeps_locals (ret a : M L A).
Proof. intros s. reflexivity. Qed.

Lemma keeps_locals_raise L A (e : exn) :
  keeps_locals (raise e : M L A).
Proof. intros s. reflexivity. Qed.

Lemma keeps_locals_lift L A (r : res A) : keeps_locals (lift r : M L A).
Proof. destruct r; intros s; reflexivity. Qed.

Lemma keeps_locals_ask L A (f : World -> A) : keeps_locals (ask f : M L A).
Proof. intros s. reflexivity. Qed.

Lemma keeps_locals_ext L A ev (op : World -> res A * World) :
  keeps_locals (ext ev op : M L A).
Proof.
  intros s. unfold ext, state_of. destruct (op (snd s)). reflexivity.
Qed.

Lemma keeps_locals_bind L A B (m : M L A) (k : A -> M L B) :
  keeps_locals m -> (forall a, keeps_locals (k a)) -> keeps_locals (bind m k).
Proof.
  intros Hm Hk s. specialize (Hm s). unfold bind, state_of in *.
  destruct (m s) as [[[a|e] s1] t1]; simpl in *; auto.
  specialize (Hk a s1). unfold state_of in Hk.
  destruct (k a s1) as [[r s2] t2]; simpl in *. congruence.
Qed.

Create HintDb gw.
Hint Resolve emits_only_ret emits_only_raise emits_only_lift emits_only_ask
  emits_only_ext emits_only_bind keeps_locals_ret keeps_locals_raise
  keeps_locals_lift keeps_locals_ask keeps_locals_ext keeps_locals_bind : gw.

(** *** The frame handling *)

Lemma ws_command_events L (P : event -> Prop) player_id cmd cmd_args :
  (forall ev, frame_event ev -> P ev) ->
  emits_only P (ws_command (L:=L) E player_id cmd cmd_args).
Proof.
  intros HP. unfold ws_command, getattr_truthy, await_call,
    await_get_player.
  apply emits_only_bind; [apply emits_only_ext, HP; exact I|intros player].
  apply emits_only_bind; [auto with gw|intros [f|]]; [|auto with gw].
  destruct cmd_args as [a|]; [destruct (PyStr.nonempty a)|];
    (apply emits_only_bind; [apply emits_only_ext, HP; exact I|auto with gw]).
Qed.

Lemma on_text_events L (P : event -> Prop) data :
  (forall ev, frame_event ev -> P ev) ->
  emits_only P (on_text (L:=L) E data).
Proof.
  intros HP. unfold on_text.
  apply emits_only_bind; [auto with gw|intros [| |]]; [| |auto with gw].
  - apply emits_only_bind; [auto with gw|intros ps].
    apply emits_only_ext, HP. exact I.
  - apply ws_command_events, HP.
Qed.

Lemma ws_loop_events L (P : event -> Prop) msgs :
  (forall ev, frame_event ev -> P ev) ->
  emits_only P (ws_loop (L:=L) E msgs).
Proof.
  intros HP. induction msgs as [|[type data|e] msgs IH]; simpl;
    auto with gw.
  destruct (is_TEXT type); auto.
  apply emits_only_bind; [apply on_text_events, HP|auto].
Qed.

Lemma on_text_keeps_locals L data : keeps_locals (on_text (L:=L) E data).
Proof.
  unfold on_text, ws_command, getattr_truthy, await_call,
    await_get_player, await_send_json.
  apply keeps_locals_bind; [auto with gw|intros [|player_id cmd cmd_args|]];
    [auto with gw| |auto with gw].
  apply keeps_locals_bind; [auto with gw|intros player].
  apply keeps_locals_bind; [auto with gw|intros [f|]]; [|auto with gw].
  destruct cmd_args as [a|]; [destruct (PyStr.nonempty a)|]; auto with gw.
Qed.

Lemma ws_loop_keeps_locals L msgs : keeps_locals (ws_loop (L:=L) E msgs).
Proof.
  induction msgs as [|[type data|e] msgs IH]; simpl; auto with gw.
  destruct (is_TEXT type); auto.
  apply keeps_locals_bind; [apply on_text_keeps_locals|auto].
Qed.

Lemma frame_events_no_unregister (t : list event) :
  Forall (@frame_event Player CbId) t -> unregister_calls t = [].
Proof.
  induction 1 as [|ev t Hev _ IH]; [reflexivity|].
  destruct ev; simpl in *; try contradiction; exact IH.
Qed.

Lemma unregister_calls_app (t1 t2 : list event) :
  unregister_calls (t1 ++ t2) = unregister_calls t1 ++ unregister_calls t2.
Proof. apply flat_map_app. Qed.

(** *** The websocket session *)

(** C3: on every exit path of a websocket session (the peer closes, a
    receive, a send or a capability raises, the task is cancelled at an
    await, the handshake or the registration fails)
    [remove_event_listener] is called exactly once, with the id the session
    holds, and it is the last thing the session does to the outside but for
    the closing debug line. *)
Theorem ws_unregisters_exactly_once (msgs : list ws_in) (w : World) :
  let tr := trace_of (websocket_handler E msgs (None, w)) in
  unregister_calls tr = [stored_id E w]
  /\ exists pre post,
       tr = pre ++ EvRemoveListener (stored_id E w) :: post
       /\ unregister_calls pre = []
       /\ (post = [] \/ post = [EvLogDebug "websocket connection closed"]).
Proof.
  assert (Hloop : forall s : option CbId * World,
             unregister_calls (trace_of (ws_loop E msgs s)) = []
             /\ fst (state_of (ws_loop E msgs s)) = fst s).
  { intros s; split; [|apply ws_loop_keeps_locals].
    apply frame_events_no_unregister, ws_loop_events; auto. }
  unfold websocket_handler, stored_id, LOGGER_debug.
  unfold bind, try_finally, ext, emit, get_local, set_local, trace_of,
    state_of in *; simpl.
  destruct (ws_prepare E w) as [[[]|e] w1]; simpl.
  - destruct (add_event_listener E w1) as [[cb_id|e] w2]; simpl.
    + destruct (Hloop (Some cb_id, w2)) as [Ht Hl].
      destruct (ws_loop E msgs (Some cb_id, w2)) as [[r [l w3]] t].
      simpl in *; subst l.
      destruct (remove_event_listener E (Some cb_id) w3) as [[[]|e'] w4];
        destruct r as [[]|e]; simpl;
        rewrite <- ?app_assoc; simpl;
        rewrite unregister_calls_app, Ht;
        (split; [reflexivity|]);
        exists (EvPrepare :: EvAddListener :: t); eexists;
        (split; [simpl; reflexivity|]);
        simpl; auto.
    + destruct (remove_event_listener E None w2) as [[[]|e'] w3]; simpl;
        (split; [reflexivity|]);
        exists [EvPrepare; EvAddListener]; eexists;
        (split; [simpl; reflexivity|]); auto.
  - destruct (remove_event_listener E None w1) as [[[]|e'] w2]; simpl;
      (split; [reflexivity|]);
      exists [EvPrepare]; eexists; (split; [simpl; reflexivity|]); auto.
Qed.

(** *** The dispatch, written out *)

(** what [websocket_handler] does for a command frame *)
Lemma ws_command_run L player_id cmd cmd_args (l : L) (w : World) :
  ws_command E player_id cmd cmd_args (l, w) =
  match get_player E player_id w with
  | (Raise e, w1) => (Raise e, (l, w1), [EvGetPlayer player_id])
  | (Ok player, w1) =>
      match capability E w1 player cmd with
      | None => (Ok tt, (l, w1), [EvGetPlayer player_id])
      | Some f =>
          match call E f (frame_args cmd_args) w1 with
          | (Ok _, w2) =>
              (Ok tt, (l, w2),
               [EvGetPlayer player_id;
                EvCall player cmd (frame_args cmd_args)])
          | (Raise e, w2) =>
              (Raise e, (l, w2),
               [EvGetPlayer player_id;
                EvCall player cmd (frame_args cmd_args)])
          end
      end
  end.
Proof.
  unfold_gw; simpl.
  destruct (get_player E player_id w) as [[player|e] w1]; simpl;
    [|reflexivity].
  destruct (capability E w1 player cmd) as [f|]; simpl; [|reflexivity].
  unfold frame_args.
  destruct cmd_args as [a|]; [destruct (PyStr.nonempty a)|]; unfold_gw;
    simpl; destruct (call E f _ w1) as [[v|e] w2]; reflexivity.
Qed.

(** what [player_command] does *)
Lemma player_command_run L request (l : L) (w : World) :
  player_command E request (l, w) =
  let player_id := mi_player_id request in
  let cmd := mi_cmd request in
  match get_player E player_id w with
  | (Raise e, w1) => (Raise e, (l, w1), [EvGetPlayer player_id])
  | (Ok None, w1) =>
      (Ok (JsonResponse (PBool false)), (l, w1),
       [EvGetPlayer player_id;
        EvLogError ("Received command for non-existing player "
                    ++ player_id)])
  | (Ok (Some p), w1) =>
      match capability E w1 (Some p) cmd with
      | None =>
          (Ok (JsonResponse (PBool false)), (l, w1),
           [EvGetPlayer player_id;
            EvLogError ("Received non-existing command " ++ cmd
                        ++ " for player " ++ name E p)])
      | Some f =>
          let args := rest_args (mi_cmd_args request) in
          match call E f args w1 with
          | (Ok v, w2) =>
              (Ok (JsonResponse v), (l, w2),
               [EvGetPlayer player_id; EvCall (Some p) cmd args])
          | (Raise e, w2) =>
              (Raise e, (l, w2),
               [EvGetPlayer player_id; EvCall (Some p) cmd args])
          end
      end
  end.
Proof.
  unfold_gw; simpl.
  destruct (get_player E (mi_player_id request) w) as [[[p|]|e] w1]; simpl;
    try reflexivity.
  destruct (capability E w1 (Some p) (mi_cmd request)) as [f|]; simpl;
    [|reflexivity].
  unfold rest_args. destruct (mi_cmd_args request) as [a|]; unfold_gw; simpl;
    destruct (call E f _ w1) as [[v|e] w2]; reflexivity.
Qed.

(** what the loop does with a text frame, by what the frame parses to *)
Lemma on_text_run L data (s : L * World) :
  on_text E data s =
  match parse_frame data with
  | Raise e => (Raise e, s, [])
  | Ok ListTargets =>
      let msg := {| message := "players";
                    message_details :=
                      DPlayers (sort_by_name E (players E (snd s))) |} in
      (fst (ws_send_json E msg (snd s)),
       (fst s, snd (ws_send_json E msg (snd s))), [EvSendJson msg])
  | Ok (Command player_id cmd cmd_args) =>
      ws_command E player_id cmd cmd_args s
  | Ok NotACommand => (Ok tt, s, [])
  end.
Proof.
  unfold on_text, bind, lift, ret, raise, ask, await_send_json, ext.
  destruct (parse_frame data) as [[|player_id cmd cmd_args|]|e]; simpl;
    try reflexivity.
  - destruct (ws_send_json E _ (snd s)) as [r w1]. reflexivity.
  - destruct (ws_command E player_id cmd cmd_args s) as [[r s1] t].
    reflexivity.
Qed.

(** what [json_rpc] does, by the row of [phrase_call] the words select *)
Lemma json_rpc_run L request (l : L) (w : World) :
  json_rpc E request (l, w) =
  let player_id := rpc_player_id request in
  let log := EvLogDebug ("jsonrpc: " ++ rpc_repr request) in
  match get_player E player_id w with
  | (Raise e, w1) => (Raise e, (l, w1), [log; EvGetPlayer player_id])
  | (Ok player, w1) =>
      match phrase_call (rpc_cmds request) with
      | None =>
          (Ok (TextResponse "command not supported"), (l, w1),
           [log; EvGetPlayer player_id])
      | Some (method, args) =>
          match attr_of E w1 player method with
          | None =>
              (Raise AttributeError, (l, w1), [log; EvGetPlayer player_id])
          | Some f =>
              match args with
              | Raise e => (Raise e, (l, w1), [log; EvGetPlayer player_id])
              | Ok a =>
                  match call E f a w1 with
                  | (Ok _, w2) =>
                      (Ok (TextResponse "success"), (l, w2),
                       [log; EvGetPlayer player_id; EvCall player method a])
                  | (Raise e, w2) =>
                      (Raise e, (l, w2),
                       [log; EvGetPlayer player_id; EvCall player method a])
                  end
              end
          end
      end
  end.
Proof.
  assert (Hm : forall player method args (w1 : World),
             bind (await_method E player method args)
               (fun _ => success) (l, w1) =
             match attr_of E w1 player method with
             | None => (Raise AttributeError, (l, w1), [])
             | Some f =>
                 match args with
                 | Raise e => (Raise e, (l, w1), [])
                 | Ok a =>
                     match call E f a w1 with
                     | (Ok _, w2) =>
                         (Ok (TextResponse "success"), (l, w2),
                          [EvCall player method a])
                     | (Raise e, w2) =>
                         (Raise e, (l, w2), [EvCall player method a])
                     end
                 end
             end).
  { intros player method args w1. unfold_gw; simpl.
    destruct (attr_of E w1 player method) as [f|]; simpl; [|reflexivity].
    destruct args as [a|e]; simpl; [|reflexivity].
    destruct (call E f a w1) as [[v|e] w2]; reflexivity. }
  unfold json_rpc, phrase_call.
  unfold bind at 1. unfold LOGGER_debug, emit at 1.
  unfold bind at 1. unfold await_get_player, ext at 1. simpl.
  destruct (get_player E (rpc_player_id request) w) as [[player|e] w1];
    simpl; [|reflexivity].
  repeat match goal with
         | |- context [if ?c then _ else _] =>
             destruct c;
             [rewrite Hm;
              destruct (attr_of E w1 player _) as [f|]; [|reflexivity];
              try (destruct (index (rpc_cmds request) 2); [|reflexivity]);
              destruct (call E f _ w1) as [[v|e] w2]; reflexivity|]
         end.
  reflexivity.
Qed.

(** C10: when the session fails before the registration completes (the
    handshake raises, or the registration itself does), the cleanup still
    runs and calls [remove_event_listener] with [None], once; the session
    then ends with the exception of the failure if that call returns, and
    with the exception of that call if it raises. *)
Theorem ws_early_failure_unregisters_none (msgs : list ws_in) (w w' : World)
  (e : exn) :
  ws_prepare E w = (Raise e, w')
  \/ (exists w1, ws_prepare E w = (Ok tt, w1)
                 /\ add_event_listener E w1 = (Raise e, w')) ->
  let o := websocket_handler E msgs (None, w) in
  unregister_calls (trace_of o) = [None]
  /\ all_calls (trace_of o) = []
  /\ result_of o = match fst (remove_event_listener E None w') with
                   | Ok _ => Raise e
                   | Raise e' => Raise e'
                   end.
Proof.
  intros H. unfold websocket_handler.
  unfold bind, try_finally, ext, emit, get_local, set_local, LOGGER_debug,
    trace_of, result_of; simpl.
  destruct H as [H|[w1 [H1 H2]]].
  - rewrite H; simpl.
    destruct (remove_event_listener E None w') as [[[]|e'] w2]; simpl; auto.
  - rewrite H1; simpl. rewrite H2; simpl.
    destruct (remove_event_listener E None w') as [[[]|e'] w2]; simpl; auto.
Qed.

(** *** The token stream *)

Lemma parse_frame_argument data player_id cmd a :
  parse_frame data = Ok (Command player_id cmd (Some a)) ->
  length (PyStr.split "/" data) = 5
  /\ nth_error (PyStr.split "/" data) 4 = Some a.
Proof.
  unfold parse_frame.
  destruct (data =? "players"); [discriminate|].
  destruct (PyStr.startswith data "players" && PyStr.contains "/cmd/" data);
    [|discriminate].
  destruct (index (PyStr.split "/" data) 1); [|discriminate].
  destruct (index (PyStr.split "/" data) 3); [|discriminate].
  destruct (Nat.eqb (length (PyStr.split "/" data)) 5) eqn:Hlen;
    [|discriminate].
  intros H; inversion H; subst. apply Nat.eqb_eq in Hlen. auto.
Qed.

Lemma parse_frame_no_argument data player_id cmd cmd_args :
  parse_frame data = Ok (Command player_id cmd cmd_args) ->
  6 <= length (PyStr.split "/" data)
  \/ nth_error (PyStr.split "/" data) 4 = Some "" ->
  frame_args cmd_args = [].
Proof.
  intros Hp Hc. destruct cmd_args as [a|]; [|reflexivity].
  apply parse_frame_argument in Hp. destruct Hp as [Hlen Ha].
  destruct Hc as [Hc|Hc]; [lia|].
  rewrite Hc in Ha. inversion Ha. reflexivity.
Qed.

(** C8: the frame [players/p1/cmd/pause] is the command for target [p1]
    named [pause] without argument, the frame [players/p1/cmd/volumeSet/42]
    the command for [p1] named [volumeSet] with argument [42], and the bare
    frame [players] is the request for the list of targets: it is answered
    with the players sorted by name, without any lookup of a player and
    without any invocation. *)
Theorem token_stream_examples :
  parse_frame "players/p1/cmd/pause" = Ok (Command "p1" "pause" None)
  /\ parse_frame "players/p1/cmd/volumeSet/42"
     = Ok (Command "p1" "volumeSet" (Some "42"))
  /\ parse_frame "players" = Ok ListTargets
  /\ forall L (s : L * World),
       trace_of (on_text E "players" s)
       = [EvSendJson {| message := "players";
                        message_details :=
                          DPlayers (sort_by_name E (players E (snd s))) |}].
Proof.
  repeat split. intros L s. rewrite on_text_run. reflexivity.
Qed.

(** C9: on the websocket path a capability is called with an argument only
    when the frame has exactly five tokens and the fifth is not empty; with
    an empty fifth token, or with six tokens or more, the capability is
    called without argument.  The REST path passes every [cmd_args] that is
    not [None], the empty string included. *)
Theorem ws_argument_only_when_fifth_token_nonempty :
  (forall L data (s : L * World) obj method args,
      In (obj, method, args) (all_calls (trace_of (on_text E data s))) ->
      args <> [] ->
      exists a, length (PyStr.split "/" data) = 5
                /\ nth_error (PyStr.split "/" data) 4 = Some a
                /\ a <> "" /\ args = [PStr a])
  /\ (forall L data player_id cmd cmd_args (l : L) w player w1 f,
        parse_frame data = Ok (Command player_id cmd cmd_args) ->
        6 <= length (PyStr.split "/" data)
        \/ nth_error (PyStr.split "/" data) 4 = Some "" ->
        get_player E player_id w = (Ok player, w1) ->
        capability E w1 player cmd = Some f ->
        all_calls (trace_of (on_text E data (l, w))) = [(player, cmd, [])])
  /\ (forall L request (l : L) w p w1 f a,
        get_player E (mi_player_id request) w = (Ok (Some p), w1) ->
        capability E w1 (Some p) (mi_cmd request) = Some f ->
        mi_cmd_args request = Some a ->
        all_calls (trace_of (player_command E request (l, w)))
        = [(Some p, mi_cmd request, [PStr a])]).
Proof.
  split; [|split].
  - intros L data [l w] obj method args Hin Hargs.
    rewrite on_text_run in Hin.
    destruct (parse_frame data) as [[|player_id cmd cmd_args|]|e] eqn:Hp;
      simpl in Hin; try contradiction.
    rewrite ws_command_run in Hin.
    destruct (get_player E player_id w) as [[player|e] w1];
      [|simpl in Hin; contradiction].
    destruct (capability E w1 player cmd) as [f|];
      [|simpl in Hin; contradiction].
    assert (Hargs' : args = frame_args cmd_args).
    { destruct (call E f (frame_args cmd_args) w1) as [[v|e] w2];
        simpl in Hin; destruct Hin as [Hin|[]]; congruence. }
    subst args. destruct cmd_args as [a|]; [|contradiction Hargs; reflexivity].
    exists a. apply parse_frame_argument in Hp. destruct Hp as [Hlen Ha].
    unfold frame_args in *.
    destruct a; simpl in *; [contradiction Hargs; reflexivity|].
    repeat split; auto. discriminate.
  - intros L data player_id cmd cmd_args l w player w1 f Hp Hc Hg Hf.
    rewrite on_text_run, Hp, ws_command_run, Hg, Hf.
    apply parse_frame_no_argument in Hp; [|exact Hc]. rewrite Hp.
    destruct (call E f [] w1) as [[v|e] w2]; reflexivity.
  - intros L request l w p w1 f a Hg Hf Ha.
    rewrite player_command_run; simpl. rewrite Hg, Hf, Ha; simpl.
    destruct (call E f [PStr a] w1) as [[v|e] w2]; reflexivity.
Qed.

(** *** Unknown targets and unknown commands *)

(** C1, as the code has it: on the REST surface a dispatch whose target does
    not resolve answers the default [false] and logs the requested id; on
    the websocket surface the frame is dropped without reply and without
    diagnostic (for a command name that [None] has no truthy attribute of);
    and on all three surfaces no attribute of any player is invoked. *)
Theorem unresolved_target_invokes_nothing :
  (forall L request (l : L) w w1,
      get_player E (mi_player_id request) w = (Ok None, w1) ->
      player_command E request (l, w)
      = (Ok (JsonResponse (PBool false)), (l, w1),
         [EvGetPlayer (mi_player_id request);
          EvLogError ("Received command for non-existing player "
                      ++ mi_player_id request)]))
  /\ (forall L player_id cmd cmd_args (l : L) w w1,
        get_player E player_id w = (Ok None, w1) ->
        capability E w1 None cmd = None ->
        ws_command E player_id cmd cmd_args (l, w)
        = (Ok tt, (l, w1), [EvGetPlayer player_id]))
  /\ (forall L player_id cmd cmd_args (l : L) w w1,
        get_player E player_id w = (Ok None, w1) ->
        capability_calls
          (trace_of (ws_command E player_id cmd cmd_args (l, w))) = [])
  /\ (forall L request (l : L) w w1,
        get_player E (rpc_player_id request) w = (Ok None, w1) ->
        capability_calls (trace_of (json_rpc E request (l, w))) = []).
Proof.
  repeat split.
  - intros L request l w w1 Hg. rewrite player_command_run; simpl.
    rewrite Hg. reflexivity.
  - intros L player_id cmd cmd_args l w w1 Hg Hc.
    rewrite ws_command_run, Hg, Hc. reflexivity.
  - intros L player_id cmd cmd_args l w w1 Hg.
    rewrite ws_command_run, Hg.
    destruct (capability E w1 None cmd) as [f|]; [|reflexivity].
    destruct (call E f (frame_args cmd_args) w1) as [[v|e] w2]; reflexivity.
  - intros L request l w w1 Hg. rewrite json_rpc_run; simpl. rewrite Hg.
    destruct (phrase_call (rpc_cmds request)) as [[method args]|];
      [|reflexivity].
    destruct (attr_of E w1 None method) as [f|]; [|reflexivity].
    destruct args as [a|e]; [|reflexivity].
    destruct (call E f a w1) as [[v|e] w2]; reflexivity.
Qed.

(** C7, as the code has it: when the resolved player has no truthy
    attribute of the name of the command, the REST surface answers the
    default [false] and logs the command and the name of the player, the
    websocket surface drops the frame without reply and without diagnostic,
    and neither invokes anything. *)
Theorem unknown_command_invokes_nothing :
  (forall L request (l : L) w p w1,
      get_player E (mi_player_id request) w = (Ok (Some p), w1) ->
      capability E w1 (Some p) (mi_cmd request) = None ->
      player_command E request (l, w)
      = (Ok (JsonResponse (PBool false)), (l, w1),
         [EvGetPlayer (mi_player_id request);
          EvLogError ("Received non-existing command " ++ mi_cmd request
                      ++ " for player " ++ name E p)]))
  /\ (forall L player_id cmd cmd_args (l : L) w p w1,
        get_player E player_id w = (Ok (Some p), w1) ->
        capability E w1 (Some p) cmd = None ->
        ws_command E player_id cmd cmd_args (l, w)
        = (Ok tt, (l, w1), [EvGetPlayer player_id])).
Proof.
  split.
  - intros L request l w p w1 Hg Hc. rewrite player_command_run; simpl.
    rewrite Hg, Hc. reflexivity.
  - intros L player_id cmd cmd_args l w p w1 Hg Hc.
    rewrite ws_command_run, Hg, Hc. reflexivity.
Qed.

(** *** Failing invocations *)

(** C2, as the code has it: an exception raised by the invocation is not
    caught.  [player_command] raises it and produces no response; the
    websocket loop raises it and reads no further frame; the session then
    runs its cleanup and ends with that exception, or with the one the
    cleanup raises. *)
Theorem invocation_failure_propagates :
  (forall L request (l : L) w p w1 f e w2,
      get_player E (mi_player_id request) w = (Ok (Some p), w1) ->
      capability E w1 (Some p) (mi_cmd request) = Some f ->
      call E f (rest_args (mi_cmd_args request)) w1 = (Raise e, w2) ->
      player_command E request (l, w)
      = (Raise e, (l, w2),
         [EvGetPlayer (mi_player_id request);
          EvCall (Some p) (mi_cmd request)
            (rest_args (mi_cmd_args request))]))
  /\ (forall L data rest player_id cmd cmd_args (l : L) w player w1 f e w2,
        parse_frame data = Ok (Command player_id cmd cmd_args) ->
        get_player E player_id w = (Ok player, w1) ->
        capability E w1 player cmd = Some f ->
        call E f (frame_args cmd_args) w1 = (Raise e, w2) ->
        ws_loop E (WsMsg TEXT data :: rest) (l, w)
        = (Raise e, (l, w2),
           [EvGetPlayer player_id;
            EvCall player cmd (frame_args cmd_args)]))
  /\ (forall msgs w w1 cb_id w2 e,
        ws_prepare E w = (Ok tt, w1) ->
        add_event_listener E w1 = (Ok cb_id, w2) ->
        result_of (ws_loop E msgs (Some cb_id, w2)) = Raise e ->
        result_of (websocket_handler E msgs (None, w))
        = match fst (remove_event_listener E (Some cb_id)
                       (snd (state_of (ws_loop E msgs (Some cb_id, w2)))))
          with
          | Ok _ => Raise e
          | Raise e' => Raise e'
          end).
Proof.
  split; [|split].
  - intros L request l w p w1 f e w2 Hg Hc Hcall.
    rewrite player_command_run; simpl. rewrite Hg, Hc, Hcall. reflexivity.
  - intros L data rest player_id cmd cmd_args l w player w1 f e w2
      Hp Hg Hc Hcall.
    simpl. unfold bind. rewrite on_text_run, Hp, ws_command_run, Hg, Hc, Hcall.
    reflexivity.
  - intros msgs w w1 cb_id w2 e Hprep Hadd Hloop.
    pose proof (ws_loop_keeps_locals msgs (Some cb_id, w2)) as Hl.
    unfold websocket_handler.
    unfold bind, try_finally, ext, emit, get_local, set_local, LOGGER_debug,
      trace_of, result_of, state_of in *; simpl.
    rewrite Hprep; simpl. rewrite Hadd; simpl.
    destruct (ws_loop E msgs (Some cb_id, w2)) as [[r [l w3]] t].
    simpl in *; subst l r.
    destruct (remove_event_listener E (Some cb_id) w3) as [[[]|e'] w4];
      reflexivity.
Qed.

(** *** What is written back *)

Lemma ws_command_sends_nothing L player_id cmd cmd_args (s : L * World) :
  sent (trace_of (ws_command E player_id cmd cmd_args s)) = [].
Proof.
  destruct s as [l w]. rewrite ws_command_run.
  destruct (get_player E player_id w) as [[player|e] w1]; [|reflexivity].
  destruct (capability E w1 player cmd) as [f|]; [|reflexivity].
  destruct (call E f (frame_args cmd_args) w1) as [[v|e] w2]; reflexivity.
Qed.

(** C4, as the code has it: for a text frame that parses as a command the
    session writes nothing to the websocket, whatever the invocation
    returned; for the bare frame [players] it writes the list of players,
    sorted by name, under the message [players]. *)
Theorem ws_writes_back_only_the_listing :
  (forall L data player_id cmd cmd_args (s : L * World),
      parse_frame data = Ok (Command player_id cmd cmd_args) ->
      sent (trace_of (on_text E data s)) = [])
  /\ (forall L (s : L * World),
        sent (trace_of (on_text E "players" s))
        = [{| message := "players";
              message_details :=
                DPlayers (sort_by_name E (players E (snd s))) |}]).
Proof.
  split.
  - intros L data player_id cmd cmd_args s Hp.
    rewrite on_text_run, Hp. apply ws_command_sends_nothing.
  - intros L s. rewrite on_text_run. reflexivity.
Qed.

(** C5, as the code has it: a text frame that is not the literal [players]
    and does not both start with [players] and contain [/cmd/] is no
    command; the session drops it (nothing is written, looked up, invoked
    or logged) and goes on with the next frame. *)
Theorem ws_drops_frames_that_are_no_command (data : string) :
  data <> "players" ->
  PyStr.startswith data "players" && PyStr.contains "/cmd/" data = false ->
  parse_frame data = Ok NotACommand
  /\ forall L rest (s : L * World),
       ws_loop E (WsMsg TEXT data :: rest) s = ws_loop E rest s.
Proof.
  intros Hne Hguard.
  assert (Hp : parse_frame data = Ok NotACommand).
  { unfold parse_frame. apply String.eqb_neq in Hne. rewrite Hne, Hguard.
    reflexivity. }
  split; [exact Hp|].
  intros L rest s. simpl. unfold bind. rewrite on_text_run, Hp.
  destruct (ws_loop E rest s) as [[r s2] t2]. reflexivity.
Qed.

(** *** The legacy phrases *)

(** C6, as the code has it: with a player that resolves and has the method,
    the words [mixer volume 37] call [volume_set] with the string [37], the
    words [mixer muting 1] call [volume_mute] with [True] and the words
    [playlist index +1] call [next]; a phrase with a branch is answered
    [success] when the player resolves, has the method of that branch, the
    arguments can be read off the words and the call returns; a phrase
    without branch is answered [command not supported], nothing being
    invoked. *)
Theorem legacy_phrases_answered :
  (forall L request (l : L) w p w1 method args f,
      get_player E (rpc_player_id request) w = (Ok (Some p), w1) ->
      player_attr E w1 p method = Some f ->
      In (rpc_cmds request, (method, args))
        [(["mixer"; "volume"; "37"], ("volume_set", [PStr "37"]));
         (["mixer"; "muting"; "1"], ("volume_mute", [PBool true]));
         (["playlist"; "index"; "+1"], ("next", []))] ->
      all_calls (trace_of (json_rpc E request (l, w)))
      = [(Some p, method, args)])
  /\ (forall L request (l : L) w p w1 method args f v w2,
        get_player E (rpc_player_id request) w = (Ok (Some p), w1) ->
        phrase_call (rpc_cmds request) = Some (method, Ok args) ->
        player_attr E w1 p method = Some f ->
        call E f args w1 = (Ok v, w2) ->
        json_rpc E request (l, w)
        = (Ok (TextResponse "success"), (l, w2),
           [EvLogDebug ("jsonrpc: " ++ rpc_repr request);
            EvGetPlayer (rpc_player_id request);
            EvCall (Some p) method args]))
  /\ (forall L request (l : L) w player w1,
        get_player E (rpc_player_id request) w = (Ok player, w1) ->
        recognized (rpc_cmds request) = false ->
        json_rpc E request (l, w)
        = (Ok (TextResponse "command not supported"), (l, w1),
           [EvLogDebug ("jsonrpc: " ++ rpc_repr request);
            EvGetPlayer (rpc_player_id request)])).
Proof.
  split; [|split].
  - intros L request l w p w1 method args f Hg Hf Hin.
    rewrite json_rpc_run; simpl. rewrite Hg.
    simpl in Hin.
    destruct Hin as [H|[H|[H|[]]]]; injection H as Hc Hm Ha;
      subst method args; rewrite <- Hc; simpl; unfold attr_of; rewrite Hf;
      destruct (call E f _ w1) as [[v|e] w2]; reflexivity.
  - intros L request l w p w1 method args f v w2 Hg Hp Hf Hcall.
    rewrite json_rpc_run; simpl. rewrite Hg, Hp. unfold attr_of.
    rewrite Hf, Hcall. reflexivity.
  - intros L request l w player w1 Hg Hr.
    rewrite json_rpc_run; simpl. rewrite Hg. unfold recognized in Hr.
    destruct (phrase_call (rpc_cmds request)); [discriminate|reflexivity].
Qed.

(** *** Further facts about the three surfaces *)

(** Frames that are not text are skipped. *)
Lemma ws_skips_non_text L type data rest (s : L * World) :
  is_TEXT type = false ->
  ws_loop E (WsMsg type data :: rest) s = ws_loop E rest s.
Proof. intros H. simpl. rewrite H. reflexivity. Qed.

(** A frame that passes the test of line 246 with fewer than four tokens:
    [msg_data_parts[3]] raises and the loop ends with [IndexError]. *)
Lemma short_command_frame_raises L rest (s : L * World) :
  length (PyStr.split "/" "players/cmd/") = 3
  /\ parse_frame "players/cmd/" = Raise IndexError
  /\ ws_loop E (WsMsg TEXT "players/cmd/" :: rest) s
     = (Raise IndexError, s, []).
Proof.
  split; [reflexivity|split; [reflexivity|]].
  simpl. unfold bind. rewrite on_text_run. reflexivity.
Qed.

(** [json_rpc] with a player that does not resolve and a phrase that has a
    branch: the attribute access on [None] raises. *)
Lemma json_rpc_unresolved_target_raises L request (l : L) w w1 method args :
  get_player E (rpc_player_id request) w = (Ok None, w1) ->
  phrase_call (rpc_cmds request) = Some (method, args) ->
  none_attr E method = None ->
  json_rpc E request (l, w)
  = (Raise AttributeError, (l, w1),
     [EvLogDebug ("jsonrpc: " ++ rpc_repr request);
      EvGetPlayer (rpc_player_id request)]).
Proof.
  intros Hg Hp Hn. rewrite json_rpc_run; simpl. rewrite Hg, Hp.
  unfold attr_of. rewrite Hn. reflexivity.
Qed.

(** The words [button power] contain [power]: they take the branch of
    [power], with the second word as argument, and never reach the branch of
    [power_toggle]. *)
Lemma button_power_calls_power :
  phrase_call ["button"; "power"] = Some ("power", Ok [PStr "power"]).
Proof. reflexivity. Qed.

(** The listing is the players in the order of their names. *)
Lemma insert_by_name_perm p ps :
  Permutation (insert_by_name E p ps) (p :: ps).
Proof.
  induction ps as [|q ps IH]; simpl; [reflexivity|].
  destruct (String.leb (name E p) (name E q)); [reflexivity|].
  rewrite IH. apply perm_swap.
Qed.

Lemma sort_by_name_perm ps : Permutation (sort_by_name E ps) ps.
Proof.
  induction ps as [|p ps IH]; simpl; [reflexivity|].
  rewrite insert_by_name_perm. now constructor.
Qed.

Lemma insert_by_name_sorted p ps :
  Sorted (fun a b => String.leb (name E a) (name E b) = true) ps ->
  Sorted (fun a b => String.leb (name E a) (name E b) = true)
    (insert_by_name E p ps).
Proof.
  induction 1 as [|q ps Hs IH Hhd]; simpl.
  - repeat constructor.
  - destruct (String.leb (name E p) (name E q)) eqn:Hle.
    + repeat constructor; assumption.
    + constructor; [exact IH|].
      destruct (String.leb_total (name E p) (name E q)) as [H|H];
        [congruence|].
      destruct Hhd as [|r ps' Hr]; simpl.
      * constructor. exact H.
      * destruct (String.leb (name E p) (name E r)); constructor; assumption.
Qed.

Lemma sort_by_name_sorted ps :
  Sorted (fun a b => String.leb (name E a) (name E b) = true)
    (sort_by_name E ps).
Proof.
  induction ps as [|p ps IH]; simpl; [constructor|].
  apply insert_by_name_sorted, IH.
Qed.

(** *** The session as a whole *)

(** what [websocket_handler] does, by the outcome of the handshake, of the
    registration and of the loop *)
Lemma websocket_handler_run (msgs : list ws_in) (w : World) :
  websocket_handler E msgs (None, w) =
  match ws_prepare E w with
  | (Raise e, w1) => session_end E None (Raise e) w1 [EvPrepare]
  | (Ok _, w1) =>
      match add_event_listener E w1 with
      | (Raise e, w2) =>
          session_end E None (Raise e) w2 [EvPrepare; EvAddListener]
      | (Ok cb, w2) =>
          match ws_loop E msgs (Some cb, w2) with
          | (r, (_, w3), t) =>
              session_end E (Some cb) r w3 (EvPrepare :: EvAddListener :: t)
          end
      end
  end.
Proof.
  pose proof (ws_loop_keeps_locals (L:=option CbId) msgs) as Hl.
  unfold websocket_handler, session_end, LOGGER_debug.
  unfold bind, try_finally, ext, emit, get_local, set_local, keeps_locals,
    state_of in *; simpl.
  destruct (ws_prepare E w) as [[[]|e] w1]; simpl.
  - destruct (add_event_listener E w1) as [[cb|e] w2]; simpl.
    + specialize (Hl (Some cb, w2)).
      destruct (ws_loop E msgs (Some cb, w2)) as [[r [l w3]] t].
      simpl in *; subst l.
      destruct (remove_event_listener E (Some cb) w3) as [[[]|e'] w4];
        destruct r as [[]|e]; simpl; rewrite <- ?app_assoc; reflexivity.
    + destruct (remove_event_listener E None w2) as [[[]|e'] w3];
        reflexivity.
  - destruct (remove_event_listener E None w1) as [[[]|e'] w2]; reflexivity.
Qed.

(** X1: Frames are handled in the order they arrive: the loop over [m1 ++ m2] is
    the loop over [m1] followed, when that returned, by the loop over [m2]
    from the state it left; when it raised, [m2] is never read. *)
Theorem ws_loop_app L (m1 m2 : list ws_in) :
  forall s : L * World,
    ws_loop E (m1 ++ m2) s =
    match ws_loop E m1 s with
    | (Ok _, s1, t1) =>
        match ws_loop E m2 s1 with
        | (r, s2, t2) => (r, s2, t1 ++ t2)
        end
    | (Raise e, s1, t1) => (Raise e, s1, t1)
    end.
Proof.
  induction m1 as [|[type data|e] m1 IH]; intros s; simpl.
  - destruct (ws_loop E m2 s) as [[r s2] t2]. reflexivity.
  - destruct (is_TEXT type); [|apply IH].
    unfold bind.
    destruct (on_text E data s) as [[[[]|e] s1] t1]; [|reflexivity].
    rewrite IH.
    destruct (ws_loop E m1 s1) as [[[[]|e] s2] t2]; [|reflexivity].
    destruct (ws_loop E m2 s2) as [[r s3] t3].
    rewrite app_assoc. reflexivity.
  - reflexivity.
Qed.

(** X2: Frames that are not text leave no mark: a session behaves as the session
    that received only the text frames (and the same receive failures). *)
Theorem ws_ignores_non_text :
  (forall L msgs (s : L * World),
      ws_loop E msgs s = ws_loop E (filter is_read msgs) s)
  /\ (forall msgs w,
        websocket_handler E msgs (None, w)
        = websocket_handler E (filter is_read msgs) (None, w)).
Proof.
  assert (Hloop : forall L msgs (s : L * World),
             ws_loop E msgs s = ws_loop E (filter is_read msgs) s).
  { intros L msgs. induction msgs as [|[type data|e] msgs IH]; intros s;
      simpl; [reflexivity| |reflexivity].
    destruct (is_TEXT type) eqn:Ht; simpl; [|apply IH].
    rewrite Ht. unfold bind.
    destruct (on_text E data s) as [[[[]|e] s1] t1]; [|reflexivity].
    rewrite IH. reflexivity. }
  split; [exact Hloop|].
  intros msgs w. rewrite !websocket_handler_run.
  destruct (ws_prepare E w) as [[[]|e] w1]; [|reflexivity].
  destruct (add_event_listener E w1) as [[cb|e] w2]; [|reflexivity].
  rewrite <- Hloop. reflexivity.
Qed.









(** X4: The closing debug line is logged exactly when the session ends without
    exception: a session that a frame, a send, the registry or the peer made
    fail leaves no closing line. *)
Theorem ws_closing_line_iff_clean_end (msgs : list ws_in) (w : World) :
  let o := websocket_handler E msgs (None, w) in
  result_of o = Ok tt
  <-> In (EvLogDebug "websocket connection closed") (trace_of o).
Proof.
  simpl. rewrite websocket_handler_run. unfold session_end.
  assert (Hno : forall s : option CbId * World,
             ~ In (EvLogDebug "websocket connection closed")
                 (trace_of (ws_loop E msgs s))).
  { intros s Hin.
    pose proof (ws_loop_events (L:=option CbId)
                  (@frame_event Player CbId) msgs) as Hf.
    specialize (Hf (fun ev H => H) s).
    rewrite Forall_forall in Hf. apply Hf in Hin. exact Hin. }
  destruct (ws_prepare E w) as [[[]|e] w1].
  2:{ destruct (remove_event_listener E None w1) as [[[]|e'] w2];
        unfold result_of, trace_of; simpl; split; try discriminate;
        intros [H|[H|[]]]; discriminate. }
  destruct (add_event_listener E w1) as [[cb|e] w2].
  2:{ destruct (remove_event_listener E None w2) as [[[]|e'] w3];
        unfold result_of, trace_of; simpl; split; try discriminate;
        intros [H|[H|[H|[]]]]; discriminate. }
  specialize (Hno (Some cb, w2)). unfold trace_of in Hno.
  destruct (ws_loop E msgs (Some cb, w2)) as [[r [l w3]] t]; simpl in *.
  destruct (remove_event_listener E (Some cb) w3) as [[[]|e'] w4];
    destruct r as [[]|e]; unfold result_of, trace_of; simpl.
  - split; [intros _|reflexivity].
    right. right. apply in_or_app. right. simpl. auto.
  - split; [discriminate|].
    intros [H|[H|H]]; try discriminate.
    apply in_app_or in H. destruct H as [H|[H|[]]];
      [contradiction|discriminate].
  - split; [discriminate|].
    intros [H|[H|H]]; try discriminate.
    apply in_app_or in H. destruct H as [H|[H|[]]];
      [contradiction|discriminate].
  - split; [discriminate|].
    intros [H|[H|H]]; try discriminate.
    apply in_app_or in H. destruct H as [H|[H|[]]];
      [contradiction|discriminate].
Qed.

Lemma frame_events_no_register (t : list event) :
  Forall (@frame_event Player CbId) t -> register_calls t = 0.
Proof.
  unfold register_calls. induction 1 as [|ev t Hev _ IH]; [reflexivity|].
  destruct ev; simpl in *; try contradiction; exact IH.
Qed.

Lemma register_calls_app (t1 t2 : list event) :
  register_calls (t1 ++ t2) = register_calls t1 + register_calls t2.
Proof. unfold register_calls. rewrite filter_app. apply length_app. Qed.

(** X5: A session starts with the handshake, registers its callback exactly once
    when the handshake returned and never when it raised, and looks up no
    player, invokes nothing and writes nothing unless the registration
    returned. *)
Theorem ws_registers_once_after_handshake (msgs : list ws_in) (w : World) :
  let tr := trace_of (websocket_handler E msgs (None, w)) in
  hd_error tr = Some EvPrepare
  /\ register_calls tr = match fst (ws_prepare E w) with
                         | Ok _ => 1
                         | Raise _ => 0
                         end
  /\ (stored_id E w = None ->
      lookups tr = [] /\ sent tr = [] /\ all_calls tr = []).
Proof.
  simpl. rewrite websocket_handler_run. unfold session_end, stored_id.
  destruct (ws_prepare E w) as [[[]|e] w1]; simpl.
  2:{ destruct (remove_event_listener E None w1) as [[[]|e'] w2]; simpl;
        repeat split. }
  destruct (add_event_listener E w1) as [[cb|e] w2]; simpl.
  2:{ destruct (remove_event_listener E None w2) as [[[]|e'] w3]; simpl;
        repeat split. }
  pose proof (ws_loop_events (L:=option CbId)
                (@frame_event Player CbId) msgs (fun ev H => H)
                (Some cb, w2)) as Hf.
  apply frame_events_no_register in Hf. unfold trace_of in Hf.
  destruct (ws_loop E msgs (Some cb, w2)) as [[r [l w3]] t]; simpl in *.
  destruct (remove_event_listener E (Some cb) w3) as [[[]|e'] w4];
    destruct r as [[]|e]; simpl;
    (split; [reflexivity|]);
    (split; [|discriminate]);
    match goal with
    | |- register_calls (_ :: _ :: ?x) = _ =>
        change (S (register_calls x) = 1)
    end;
    rewrite register_calls_app, Hf; reflexivity.
Qed.

(** *** More on the token stream *)

Lemma index_raises A (xs : list A) i e :
  index xs i = Raise e -> e = IndexError /\ length xs <= i.
Proof.
  unfold index. destruct (nth_error xs i) eqn:H; [discriminate|].
  intros He; inversion He. apply nth_error_None in H. auto.
Qed.

Lemma index_in_range A (xs : list A) i :
  i < length xs -> exists x, index xs i = Ok x.
Proof.
  unfold index. intros H. destruct (nth_error xs i) eqn:Hn; [eauto|].
  apply nth_error_None in Hn. lia.
Qed.

(** X6: The parse of a frame raises only for a frame that passes the test of
    line 246 with fewer than four tokens, and then [IndexError]; a frame of
    four tokens or more always parses. *)
Theorem parse_frame_raises_only_when_short (data : string) :
  (forall e, parse_frame data = Raise e ->
             e = IndexError
             /\ length (PyStr.split "/" data) < 4
             /\ PyStr.startswith data "players" = true
             /\ PyStr.contains "/cmd/" data = true)
  /\ (4 <= length (PyStr.split "/" data) ->
      exists fr, parse_frame data = Ok fr).
Proof.
  unfold parse_frame. split.
  - intros e.
    destruct (data =? "players"); [discriminate|].
    destruct (PyStr.startswith data "players") eqn:Hs; simpl;
      [|discriminate].
    destruct (PyStr.contains "/cmd/" data) eqn:Hc; [|discriminate].
    destruct (index (PyStr.split "/" data) 1) as [player_id|e1] eqn:H1.
    + destruct (index (PyStr.split "/" data) 3) as [cmd|e3] eqn:H3;
        [discriminate|].
      intros H; inversion H; subst. apply index_raises in H3.
      destruct H3 as [He Hlen]. repeat split; auto. lia.
    + intros H; inversion H; subst. apply index_raises in H1.
      destruct H1 as [He Hlen]. repeat split; auto. lia.
  - intros Hlen.
    destruct (data =? "players"); [eauto|].
    destruct (PyStr.startswith data "players" && PyStr.contains "/cmd/" data);
      [|eauto].
    destruct (@index_in_range _ (PyStr.split "/" data) 1) as [x1 H1];
      [lia|].
    destruct (@index_in_range _ (PyStr.split "/" data) 3) as [x3 H3];
      [lia|].
    rewrite H1, H3. eauto.
Qed.

Lemma split_lacks s : lacks "/" s = true -> PyStr.split "/" s = [s].
Proof.
  induction s as [|c s IH]; simpl; [reflexivity|].
  destruct (Ascii.eqb c "/"); simpl; [discriminate|].
  intros H. rewrite (IH H). reflexivity.
Qed.

Lemma split_app_sep s t :
  lacks "/" s = true ->
  PyStr.split "/" (s ++ String "/" t) = s :: PyStr.split "/" t.
Proof.
  induction s as [|c s IH]; simpl; [reflexivity|].
  destruct (Ascii.eqb c "/"); simpl; [discriminate|].
  intros H. rewrite (IH H). reflexivity.
Qed.

Lemma prefix_app (sub post : string) :
  String.prefix sub (sub ++ post) = true.
Proof.
  induction sub as [|c sub IH]; simpl; [destruct post; reflexivity|].
  destruct (ascii_dec c c); [exact IH|congruence].
Qed.

Lemma string_app_assoc (a b c : string) :
  ((a ++ b) ++ c)%string = (a ++ b ++ c)%string.
Proof. induction a as [|x a IH]; simpl; [reflexivity|]. now rewrite IH. Qed.

Lemma contains_prefix (sub s : string) :
  String.prefix sub s = true -> PyStr.contains sub s = true.
Proof. destruct s; simpl; intros H; rewrite H; reflexivity. Qed.

Lemma contains_app (sub pre post : string) :
  PyStr.contains sub (pre ++ sub ++ post) = true.
Proof.
  induction pre as [|c pre IH]; simpl.
  - apply contains_prefix, prefix_app.
  - rewrite IH. apply orb_true_r.
Qed.

(** X7: Writing a command and parsing it give the command back: for a player id
    and a command name without slash, the frame
    [players/<id>/cmd/<name>] is the command for that id with that name and
    no argument, and [players/<id>/cmd/<name>/<arg>], for an argument
    without slash, the one with that argument. *)
Theorem parse_frame_of_command (player_id cmd : string) :
  lacks "/" player_id = true ->
  lacks "/" cmd = true ->
  parse_frame ("players/" ++ player_id ++ "/cmd/" ++ cmd)
  = Ok (Command player_id cmd None)
  /\ forall a,
       lacks "/" a = true ->
       parse_frame ("players/" ++ player_id ++ "/cmd/" ++ cmd ++ "/" ++ a)
       = Ok (Command player_id cmd (Some a)).
Proof.
  intros Hp Hc.
  assert (Hguard : forall rest,
             PyStr.contains "/cmd/"
               ("players/" ++ player_id ++ "/cmd/" ++ rest) = true).
  { intros rest.
    replace ("players/" ++ player_id ++ "/cmd/" ++ rest)%string
      with (("players/" ++ player_id) ++ "/cmd/" ++ rest)%string
      by (rewrite string_app_assoc; reflexivity).
    apply contains_app. }
  assert (Hsplit : forall rest,
             PyStr.split "/" ("players/" ++ player_id ++ "/cmd/" ++ rest)
             = "players" :: player_id :: "cmd" :: PyStr.split "/" rest).
  { intros rest.
    change ("players/" ++ player_id ++ "/cmd/" ++ rest)%string
      with ("players" ++ String "/"
              (player_id ++ String "/" ("cmd" ++ String "/" rest)))%string.
    rewrite split_app_sep by reflexivity.
    rewrite split_app_sep by exact Hp.
    rewrite split_app_sep by reflexivity. reflexivity. }
  split.
  - unfold parse_frame. rewrite Hguard, Hsplit, (split_lacks _ Hc).
    reflexivity.
  - intros a Ha. unfold parse_frame. rewrite Hguard, Hsplit.
    change (cmd ++ "/" ++ a)%string with (cmd ++ String "/" a)%string.
    rewrite split_app_sep by exact Hc. rewrite (split_lacks _ Ha).
    reflexivity.
Qed.

(** *** More on the legacy phrases *)

Lemma phrase_call_method cmds method args :
  phrase_call cmds = Some (method, args) ->
  In method rpc_methods /\ match args with
                           | Ok a => length a <= 1
                           | Raise _ => True
                           end.
Proof.
  unfold phrase_call. intros H.
  repeat match type of H with
         | (if ?c then _ else _) = _ =>
             destruct c eqn:?;
             [inversion H; subst; simpl;
              try (destruct (index cmds 2)); simpl; auto 15; fail|]
         end.
  destruct (PyStr.join " " cmds =? "button power") eqn:Hb; [|discriminate].
  apply String.eqb_eq in Hb. rewrite Hb in *. simpl in *. discriminate.
Qed.

(** X8: [json_rpc] makes at most one call for a request, of one of ten methods
    of the player and with at most one argument; [power_toggle] is not among
    them: the words [button power] contain [power] and take that branch. *)
Theorem json_rpc_calls_one_known_method L request (s : L * World) :
  let tr := trace_of (json_rpc E request s) in
  length (all_calls tr) <= 1
  /\ forall obj method args,
       In (obj, method, args) (all_calls tr) ->
       In method rpc_methods /\ method <> "power_toggle"
       /\ length args <= 1.
Proof.
  assert (Hm : forall method, In method rpc_methods ->
                              method <> "power_toggle").
  { intros method Hin Heq. subst. simpl in Hin.
    repeat (destruct Hin as [Hin|Hin]; [discriminate|]). exact Hin. }
  destruct s as [l w]. simpl. rewrite json_rpc_run. simpl.
  destruct (get_player E (rpc_player_id request) w) as [[player|e] w1];
    [|simpl; split; [lia|intros ? ? ? []]].
  destruct (phrase_call (rpc_cmds request)) as [[method args]|] eqn:Hp;
    [|simpl; split; [lia|intros ? ? ? []]].
  apply phrase_call_method in Hp. destruct Hp as [Hin Hargs].
  destruct (attr_of E w1 player method) as [f|];
    [|simpl; split; [lia|intros ? ? ? []]].
  destruct args as [a|e]; [|simpl; split; [lia|intros ? ? ? []]].
  destruct (call E f a w1) as [[v|e] w2]; simpl; (split; [lia|]);
    intros obj method' args' [H|[]]; inversion H; subst; auto.
Qed.

(** X9: Whenever [json_rpc] answers, the answer is the text [success] for a
    phrase that has a branch and the text [command not supported] for any
    other; it answers nothing else. *)
Theorem json_rpc_answers_one_of_two_texts L request (s : L * World) resp :
  result_of (json_rpc E request s) = Ok resp ->
  resp = TextResponse (if recognized (rpc_cmds request) then "success"
                       else "command not supported").
Proof.
  destruct s as [l w]. rewrite json_rpc_run. unfold recognized, result_of.
  simpl.
  destruct (get_player E (rpc_player_id request) w) as [[player|e] w1];
    [|discriminate].
  destruct (phrase_call (rpc_cmds request)) as [[method args]|];
    [|intros H; inversion H; reflexivity].
  destruct (attr_of E w1 player method) as [f|]; [|discriminate].
  destruct args as [a|e]; [|discriminate].
  destruct (call E f a w1) as [[v|e] w2]; [|discriminate].
  intros H; inversion H; reflexivity.
Qed.

(** *** The REST dispatch that succeeds *)

(** X10: When the player resolves, has a truthy attribute of the name of the
    command and the call returns, [player_command] answers the value the
    call returned, having passed [cmd_args] when the route had one and no
    argument otherwise, and logs nothing. *)
Theorem player_command_answers_the_value L request (l : L) w p w1 f v w2 :
  get_player E (mi_player_id request) w = (Ok (Some p), w1) ->
  capability E w1 (Some p) (mi_cmd request) = Some f ->
  call E f (rest_args (mi_cmd_args request)) w1 = (Ok v, w2) ->
  player_command E request (l, w)
  = (Ok (JsonResponse v), (l, w2),
     [EvGetPlayer (mi_player_id request);
      EvCall (Some p) (mi_cmd request) (rest_args (mi_cmd_args request))]).
Proof.
  intros Hg Hc Hcall. rewrite player_command_run. simpl.
  rewrite Hg, Hc, Hcall. reflexivity.
Qed.

(** *** The listing of the players *)

Lemma leb_refl (x : string) : String.leb x x = true.
Proof. destruct (String.leb_total x x); assumption. Qed.

Lemma insert_by_name_filter n p ps :
  filter (fun q => name E q =? n) (insert_by_name E p ps)
  = filter (fun q => name E q =? n) (p :: ps).
Proof.
  induction ps as [|q ps IH]; [reflexivity|].
  simpl insert_by_name.
  destruct (String.leb (name E p) (name E q)) eqn:Hle; [reflexivity|].
  simpl in *. rewrite IH.
  destruct (name E p =? n) eqn:Hp; [|reflexivity].
  destruct (name E q =? n) eqn:Hq; [|reflexivity].
  apply String.eqb_eq in Hp, Hq. rewrite Hp, Hq, leb_refl in Hle.
  discriminate.
Qed.

(** X11: The REST listing [players] and the websocket reply to the frame
    [players] carry the same list: the players of the registry, each once,
    in ascending order of their names; the REST handler calls nothing. *)
Theorem players_listing_sorted L (s : L * World) :
  let listing := sort_by_name E (players E (snd s)) in
  Web_players E s = (Ok listing, s, [])
  /\ sent (trace_of (on_text E "players" s))
     = [{| message := "players"; message_details := DPlayers listing |}]
  /\ Permutation listing (players E (snd s))
  /\ Sorted (fun a b => String.leb (name E a) (name E b) = true) listing.
Proof.
  simpl. split; [reflexivity|]. split; [rewrite on_text_run; reflexivity|].
  split; [apply sort_by_name_perm|apply sort_by_name_sorted].
Qed.

(** X12: The sort of the listing is stable: the players that share a name come
    in the order the registry has them. *)
Theorem players_listing_stable (ps : list Player) (n : string) :
  filter (fun q => name E q =? n) (sort_by_name E ps)
  = filter (fun q => name E q =? n) ps.
Proof.
  induction ps as [|p ps IH]; [reflexivity|].
  simpl sort_by_name. rewrite insert_by_name_filter. simpl. rewrite IH.
  reflexivity.
Qed.

End Properties.

(** ** Properties of the other handlers *)

(** *** [search] *)

Lemma query_get_skip (q1 q2 : query) k v key :
  k <> key ->
  query_get (q1 ++ (k, v) :: q2) key = query_get (q1 ++ q2) key.
Proof.
  intros Hne. induction q1 as [|[k' v'] q1 IH]; simpl.
  - apply String.eqb_neq in Hne. rewrite Hne. reflexivity.
  - destruct (k' =? key); [reflexivity|exact IH].
Qed.

(** X13: The media types [search] asks the library for are those of the five whose
    plural occurs in the parameter [media_types], in the fixed order artists,
    albums, tracks, playlists, radios whatever the order in the parameter;
    all five when the parameter is absent or empty. *)
Theorem search_media_types (q : query) :
  let mq := query_get q "media_types" in
  let types := Search.media_types (Search.search q) in
  types = filter (fun t => Search.wanted mq (Search.plural t))
            Search.all_media_types
  /\ (forall t, In t types <->
                 match mq with
                 | None | Some "" => True
                 | Some text => PyStr.contains (Search.plural t) text = true
                 end)
  /\ (mq = None \/ mq = Some "" -> types = Search.all_media_types).
Proof.
  cbv zeta.
  assert (Hf : Search.media_types (Search.search q)
               = filter (fun t => Search.wanted (query_get q "media_types")
                                    (Search.plural t))
                   Search.all_media_types).
  { unfold Search.search. simpl.
    destruct (Search.wanted (query_get q "media_types") "artists");
      destruct (Search.wanted (query_get q "media_types") "albums");
      destruct (Search.wanted (query_get q "media_types") "tracks");
      destruct (Search.wanted (query_get q "media_types") "playlists");
      destruct (Search.wanted (query_get q "media_types") "radios");
      reflexivity. }
  split; [exact Hf|]. split.
  - intros t. rewrite Hf, filter_In. unfold Search.wanted.
    destruct (query_get q "media_types") as [[|c text]|]; simpl.
    + split; [auto|]. intros _. split; [|reflexivity].
      destruct t; simpl; tauto.
    + split; [intros [_ H]; exact H|]. intros H. split; [|exact H].
      destruct t; simpl; tauto.
    + split; [auto|]. intros _. split; [|reflexivity].
      destruct t; simpl; tauto.
  - intros [H|H]; rewrite Hf, H; reflexivity.
Qed.

(** X14: [search] never reads the parameter [limit]: with or without it, and
    whatever its value, the same search is made.  The limit it passes on is
    the parameter [media_id], and [5] when that is absent. *)
Theorem search_ignores_limit (q1 q2 : query) (v : string) :
  Search.search (q1 ++ ("limit", v) :: q2) = Search.search (q1 ++ q2)
  /\ Search.limit (Search.search (q1 ++ q2))
     = match query_get (q1 ++ q2) "media_id" with
       | Some n => PStr n
       | None => PInt 5
       end.
Proof.
  split; [|reflexivity].
  unfold Search.search.
  rewrite !(@query_get_skip q1 q2 "limit" v) by discriminate. reflexivity.
Qed.

(** *** [__init__] and [setup] *)

(** X15: The construction of [Web] fails exactly when a configured certificate or
    key is not the path of a file; the certificate is looked at first. *)
Theorem Web_init_fails_on_missing_file (isfile : string -> bool)
  (config : Startup.web_config) :
  let cert := Startup.ssl_certificate config in
  let key := Startup.ssl_key config in
  ((exists web, Startup.Web_init isfile config = Startup.Created web)
   <-> (cert = "" \/ isfile cert = true) /\ (key = "" \/ isfile key = true))
  /\ (cert <> "" -> isfile cert = false ->
      Startup.Web_init isfile config
      = Startup.FileNotFoundError
          ("SSL certificate file not found: " ++ cert)).
Proof.
  simpl. unfold Startup.Web_init. split.
  - destruct (Startup.ssl_certificate config) as [|c cert];
      destruct (Startup.ssl_key config) as [|k key]; simpl;
      repeat match goal with
             | |- context [isfile ?x] => destruct (isfile x) eqn:?
             end;
      simpl; split;
      try (intros _; eauto; fail);
      try (intros [web H]; discriminate);
      try (intros [[H|H] [H'|H']]; discriminate);
      eauto.
  - intros Hne Hf. rewrite Hf.
    destruct (Startup.ssl_certificate config); [congruence|reflexivity].
Qed.

(** X16: Once [Web] is constructed, the plain site on the configured port is
    always started, and first; the TLS site is started exactly when both a
    certificate and a key are configured, both then being files.  With only
    one of the two configured there is no TLS site and no error. *)
Theorem https_site_needs_certificate_and_key (isfile : string -> bool)
  (config : Startup.web_config) (web : Startup.Web) :
  Startup.Web_init isfile config = Startup.Created web ->
  let cert := Startup.ssl_certificate config in
  let key := Startup.ssl_key config in
  Startup.sites web
  = Startup.HttpSite (Startup.http_port config)
    :: (if PyStr.nonempty cert && PyStr.nonempty key
        then [Startup.HttpsSite (Startup.https_port config) cert key]
        else [])
  /\ (PyStr.nonempty cert && PyStr.nonempty key = true ->
      isfile cert = true /\ isfile key = true).
Proof.
  simpl. unfold Startup.Web_init, Startup.sites.
  destruct (Startup.ssl_certificate config) as [|c cert] eqn:Hc;
    destruct (Startup.ssl_key config) as [|k key] eqn:Hk; simpl;
    repeat match goal with
           | |- context [isfile ?x] => destruct (isfile x) eqn:?
           end;
    simpl; intros H; inversion H; subst; simpl; rewrite ?Hc, ?Hk;
    split; auto; discriminate.
Qed.

(** *** [save_config] *)

Section ConfigProperties.

Variable Value : Type.
Variable py_eq : Value -> Value -> bool.
Variable str : Value -> string.
Variable save : Config.config Value -> option exn.

Local Abbreviation save_config := (Config.save_config py_eq str save).
Local Abbreviation lookup := (@Config.lookup Value).

Lemma dict_get_set_same V (d : Config.dict V) k v :
  Config.dict_get (Config.dict_set d k v) k = Some v.
Proof.
  induction d as [|[k' v'] d IH]; simpl.
  - rewrite String.eqb_refl. reflexivity.
  - destruct (k' =? k) eqn:Hk; simpl; rewrite Hk; auto.
Qed.

Lemma dict_get_set_other V (d : Config.dict V) k v k' :
  k' <> k ->
  Config.dict_get (Config.dict_set d k v) k' = Config.dict_get d k'.
Proof.
  intros Hne. induction d as [|[k0 v0] d IH]; simpl.
  - destruct (k =? k') eqn:Hk; [|reflexivity].
    apply String.eqb_eq in Hk. congruence.
  - destruct (k0 =? k) eqn:Hk; simpl.
    + apply String.eqb_eq in Hk. subst k0.
      destruct (k =? k') eqn:Hk'; [|reflexivity].
      apply String.eqb_eq in Hk'. congruence.
    + destruct (k0 =? k'); [reflexivity|exact IH].
Qed.

Lemma save_config_stores conf_key conf_subkey new_values c r c' tr :
  save_config conf_key conf_subkey (Ok new_values) c = (Config.Returned r, c', tr) ->
  exists v, lookup c' conf_key conf_subkey = Config.Returned v
            /\ (v = new_values \/ py_eq v new_values = true).
Proof.
  unfold Config.save_config, Config.lookup.
  destruct (Config.dict_get c conf_key) as [values|] eqn:Hk;
    [|discriminate].
  destruct (Config.dict_get values conf_subkey) as [cur|] eqn:Hs;
    [|discriminate].
  destruct (py_eq cur new_values) eqn:Heq; simpl.
  - intros H; inversion H; subst. rewrite Hk, Hs. eauto.
  - destruct (save _) as [e|]; [discriminate|].
    intros H; inversion H; subst.
    rewrite dict_get_set_same, dict_get_set_same. eauto.
Qed.

(** X17: Reading back what [save_config] wrote: after a call that answers, the
    entry holds the new value, or the old one when that was equal to it;
    every other entry of the dictionary is as before. *)
Theorem save_config_read_back conf_key conf_subkey new_values c r c' tr :
  save_config conf_key conf_subkey (Ok new_values) c = (Config.Returned r, c', tr) ->
  (exists v, lookup c' conf_key conf_subkey = Config.Returned v
             /\ (v = new_values \/ py_eq v new_values = true))
  /\ forall k sk, k <> conf_key \/ sk <> conf_subkey ->
                  lookup c' k sk = lookup c k sk.
Proof.
  intros H. split; [exact (save_config_stores _ _ _ _ H)|].
  revert H. unfold Config.save_config, Config.lookup.
  destruct (Config.dict_get c conf_key) as [values|] eqn:Hk;
    [|discriminate].
  destruct (Config.dict_get values conf_subkey) as [cur|] eqn:Hs;
    [|discriminate].
  destruct (py_eq cur new_values) eqn:Heq; simpl.
  - intros H; inversion H; subst. reflexivity.
  - destruct (save _) as [e|]; [discriminate|].
    intros H; inversion H; subst.
    intros k sk [Hne|Hne].
    + rewrite dict_get_set_other by exact Hne. reflexivity.
    + destruct (string_dec k conf_key) as [->|Hk'].
      * rewrite dict_get_set_same, Hk.
        rewrite dict_get_set_other by exact Hne. reflexivity.
      * rewrite dict_get_set_other by exact Hk'. reflexivity.
Qed.

(** X18: [save_config] writes the dictionary and calls [save()] only when the
    stored value differs from the new one, and then hands [save()] the
    dictionary as written; in every other case (a body that does not decode,
    a missing key or subkey, an equal value) the dictionary is left as it
    was and nothing is saved. *)
Theorem save_config_saves_only_changes conf_key conf_subkey body c :
  let o := save_config conf_key conf_subkey body c in
  (snd (fst o) = c /\ Config.saves (snd o) = [])
  \/ (Config.saves (snd o) = [snd (fst o)]
      /\ exists cur new_values,
          body = Ok new_values
          /\ lookup c conf_key conf_subkey = Config.Returned cur
          /\ py_eq cur new_values = false).
Proof.
  simpl. unfold Config.save_config, Config.lookup.
  destruct body as [new_values|e]; [|left; split; reflexivity].
  destruct (Config.dict_get c conf_key) as [values|];
    [|left; split; reflexivity].
  destruct (Config.dict_get values conf_subkey) as [cur|];
    [|left; split; reflexivity].
  destruct (py_eq cur new_values) eqn:Heq; simpl;
    [left; split; reflexivity|].
  right. destruct (save _) as [e|]; simpl; split; eauto.
Qed.

(** X19: The answer of [save_config] always reports success; it asks for a
    restart exactly when a value changed under a key other than
    [player_settings]. *)
Theorem save_config_restart_rule conf_key conf_subkey body c r c' tr :
  save_config conf_key conf_subkey body c = (Config.Returned r, c', tr) ->
  Config.success r = true
  /\ Config.restart_required r
     = Config.settings_changed r && negb (conf_key =? "player_settings")
  /\ (Config.settings_changed r = false -> c' = c).
Proof.
  unfold Config.save_config.
  destruct body as [new_values|e]; [|discriminate].
  destruct (Config.dict_get c conf_key) as [values|]; [|discriminate].
  destruct (Config.dict_get values conf_subkey) as [cur|]; [|discriminate].
  destruct (py_eq cur new_values); simpl.
  - intros H; inversion H; subst. auto.
  - destruct (save _) as [e|]; [discriminate|].
    intros H; inversion H; subst. simpl. repeat split. discriminate.
Qed.

(** X20: Saving the same values twice: when the first call answered, the second
    reports no change, asks for no restart, leaves the dictionary as it is
    and saves nothing (for a value that is equal to itself). *)
Theorem save_config_twice conf_key conf_subkey new_values c r c' tr :
  py_eq new_values new_values = true ->
  save_config conf_key conf_subkey (Ok new_values) c = (Config.Returned r, c', tr) ->
  exists log,
    save_config conf_key conf_subkey (Ok new_values) c'
    = (Config.Returned {| Config.success := true;
                          Config.restart_required := false;
                          Config.settings_changed := false |},
       c', [log]).
Proof.
  intros Hrefl H. apply save_config_stores in H.
  destruct H as [v [Hv Heq]].
  unfold Config.save_config, Config.lookup in *.
  destruct (Config.dict_get c' conf_key) as [values|]; [|discriminate].
  destruct (Config.dict_get values conf_subkey) as [cur|]; [|discriminate].
  inversion Hv; subst v.
  assert (Hc : py_eq cur new_values = true) by (destruct Heq; congruence).
  rewrite Hc. simpl. eauto.
Qed.

(** X21: When [save()] raises, the request fails but the new value stays in the
    dictionary: the same request sent again finds nothing to change, reports
    success and saves nothing, so the value is never handed to [save()]
    again. *)
Theorem save_config_failed_save_is_not_retried conf_key conf_subkey
  new_values c e c' tr :
  py_eq new_values new_values = true ->
  save_config conf_key conf_subkey (Ok new_values) c
  = (Config.Raised (Config.Failure e), c', tr) ->
  lookup c' conf_key conf_subkey = Config.Returned new_values
  /\ exists log,
       save_config conf_key conf_subkey (Ok new_values) c'
       = (Config.Returned {| Config.success := true;
                             Config.restart_required := false;
                             Config.settings_changed := false |},
          c', [log]).
Proof.
  intros Hrefl H.
  assert (Hl : lookup c' conf_key conf_subkey = Config.Returned new_values).
  { unfold Config.save_config, Config.lookup in *.
    destruct (Config.dict_get c conf_key) as [values|] eqn:Hk;
      [|discriminate].
    destruct (Config.dict_get values conf_subkey) as [cur|] eqn:Hs;
      [|discriminate].
    destruct (py_eq cur new_values); simpl in H; [discriminate|].
    destruct (save _) as [e'|]; [|discriminate].
    inversion H; subst.
    rewrite dict_get_set_same, dict_get_set_same. reflexivity. }
  split; [exact Hl|].
  unfold Config.save_config, Config.lookup in *.
  destruct (Config.dict_get c' conf_key) as [values|]; [|discriminate].
  destruct (Config.dict_get values conf_subkey) as [cur|]; [|discriminate].
  inversion Hl; subst cur. rewrite Hrefl. simpl. eauto.
Qed.

End ConfigProperties.

(** *** [player_queue] *)

Lemma py_slice_infix A (xs : list A) (start stop : Z) :
  exists pre post, xs = pre ++ py_slice xs start stop ++ post.
Proof.
  unfold py_slice.
  set (lo := Z.to_nat (clip (Z.of_nat (length xs)) start)).
  set (k := Z.to_nat (clip (Z.of_nat (length xs)) stop
                      - clip (Z.of_nat (length xs)) start)).
  exists (firstn lo xs), (skipn k (skipn lo xs)).
  rewrite firstn_skipn, firstn_skipn. reflexivity.
Qed.

Lemma py_slice_length A (xs : list A) (start stop : Z) :
  (0 <= start)%Z -> (0 <= stop)%Z ->
  length (py_slice xs start stop) <= Z.to_nat (stop - start).
Proof.
  intros Ha Hb. unfold py_slice, clip.
  destruct (start <? 0)%Z eqn:H1; [apply Z.ltb_lt in H1; lia|].
  destruct (stop <? 0)%Z eqn:H2; [apply Z.ltb_lt in H2; lia|].
  cbv beta iota. rewrite length_firstn.
  etransitivity; [apply Nat.le_min_l|]. lia.
Qed.

Lemma py_slice_from_start A (xs : list A) (stop : Z) :
  (0 <= stop)%Z -> py_slice xs 0 stop = firstn (Z.to_nat stop) xs.
Proof.
  intros Hb. unfold py_slice, clip. simpl.
  destruct (stop <? 0)%Z eqn:H2; [apply Z.ltb_lt in H2; lia|].
  cbv beta iota. rewrite (Z.min_l 0) by lia. simpl. rewrite Z.sub_0_r.
  destruct (Z.le_ge_cases stop (Z.of_nat (length xs))) as [H|H].
  - rewrite Z.min_l by lia. reflexivity.
  - rewrite Z.min_r by lia. rewrite Nat2Z.id.
    rewrite firstn_all, firstn_all2 by lia. reflexivity.
Qed.

Section QueueProperties.

Variables World Player Attr CbId : Type.
Variable E : Env World Player Attr CbId.
Variable Item : Type.
Variable queue_items : World -> Player -> list Item.
Variable py_int : string -> option Z.

Local Abbreviation queue_of := (player_queue E queue_items py_int).

Lemma player_queue_run L player_id q (l : L) w p w1 limit offset :
  int_param py_int q "limit" 50 = Ok limit ->
  int_param py_int q "offset" 0 = Ok offset ->
  get_player E player_id w = (Ok (Some p), w1) ->
  queue_of player_id q (l, w)
  = (Ok (py_slice (queue_items w1 p) offset limit), (l, w1),
     [EvGetPlayer player_id]).
Proof.
  intros Hl Ho Hg.
  unfold player_queue, bind, lift, ret, raise, ask,
    await_get_player, ext.
  rewrite Hl, Ho. simpl. rewrite Hg. reflexivity.
Qed.

(** X22: The page [player_queue] answers is the slice of the queue from index
    [offset] up to index [limit] (not [offset + limit]): a run of
    consecutive items of the queue, of at most [limit - offset] items for
    indices that are not negative, and the first [limit] items for the
    offset [0]. *)
Theorem player_queue_page L player_id q (l : L) w p w1 limit offset :
  int_param py_int q "limit" 50 = Ok limit ->
  int_param py_int q "offset" 0 = Ok offset ->
  get_player E player_id w = (Ok (Some p), w1) ->
  let items := queue_items w1 p in
  exists page,
    queue_of player_id q (l, w)
    = (Ok page, (l, w1), [EvGetPlayer player_id])
    /\ (exists pre post, items = pre ++ page ++ post)
    /\ ((0 <= offset)%Z -> (0 <= limit)%Z ->
        length page <= Z.to_nat (limit - offset))
    /\ (offset = 0%Z -> (0 <= limit)%Z ->
        page = firstn (Z.to_nat limit) items).
Proof.
  intros Hl Ho Hg. simpl.
  exists (py_slice (queue_items w1 p) offset limit).
  split; [|split; [apply py_slice_infix|split]].
  - apply player_queue_run; assumption.
  - apply py_slice_length.
  - intros -> Hlim. apply py_slice_from_start, Hlim.
Qed.

(** X23: With the default limit of 50, an offset of 50 or more answers the empty
    page, however long the queue is. *)
Theorem player_queue_second_page_is_empty L player_id q (l : L) w p w1
  offset :
  query_get q "limit" = None ->
  int_param py_int q "offset" 0 = Ok offset ->
  (50 <= offset)%Z ->
  get_player E player_id w = (Ok (Some p), w1) ->
  queue_of player_id q (l, w)
  = (Ok [], (l, w1), [EvGetPlayer player_id]).
Proof.
  intros Hq Ho Hoff Hg.
  assert (Hl : int_param py_int q "limit" 50 = Ok 50%Z).
  { unfold int_param. rewrite Hq. reflexivity. }
  rewrite (@player_queue_run L player_id q l w p w1 50%Z offset Hl Ho Hg).
  assert (H0 : (0 <= offset)%Z) by lia.
  assert (H50 : (0 <= 50)%Z) by lia.
  pose proof (py_slice_length (queue_items w1 p) H0 H50) as Hlen.
  assert (Hz : Z.to_nat (50 - offset) = 0) by lia.
  rewrite Hz in Hlen.
  destruct (py_slice (queue_items w1 p) offset 50);
    [reflexivity|inversion Hlen].
Qed.

(** X24: [player_queue] raises [ValueError] for a [limit] or an [offset] that is
    no integer, before it looks the player up, and [AttributeError] for a
    player that does not resolve. *)
Theorem player_queue_errors L player_id q (l : L) w :
  (forall e, int_param py_int q "limit" 50 = Raise e ->
             e = ValueError
             /\ queue_of player_id q (l, w) = (Raise ValueError, (l, w), []))
  /\ (forall limit e,
        int_param py_int q "limit" 50 = Ok limit ->
        int_param py_int q "offset" 0 = Raise e ->
        e = ValueError
        /\ queue_of player_id q (l, w) = (Raise ValueError, (l, w), []))
  /\ (forall limit offset w1,
        int_param py_int q "limit" 50 = Ok limit ->
        int_param py_int q "offset" 0 = Ok offset ->
        get_player E player_id w = (Ok None, w1) ->
        queue_of player_id q (l, w)
        = (Raise AttributeError, (l, w1), [EvGetPlayer player_id])).
Proof.
  assert (Hv : forall key default e,
             int_param py_int q key default = Raise e -> e = ValueError).
  { intros key default e. unfold int_param.
    destruct (query_get q key) as [text|]; [|discriminate].
    destruct (py_int text); [discriminate|]. intros H; inversion H; auto. }
  unfold player_queue, bind, lift, ret, raise, ask,
    await_get_player, ext.
  split; [|split].
  - intros e He. pose proof (Hv _ _ _ He); subst. rewrite He. auto.
  - intros limit e Hl He. pose proof (Hv _ _ _ He); subst.
    rewrite Hl, He. auto.
  - intros limit offset w1 Hl Ho Hg. rewrite Hl, Ho. simpl. rewrite Hg.
    reflexivity.
Qed.

End QueueProperties.

(** ** The handlers on the small installation *)

Module Runs.

Import Demo.

Lemma unresolved_target_invokes_nothing_witness :
  player_command env
    {| mi_player_id := "ghost"; mi_cmd := "pause"; mi_cmd_args := None |}
    (tt, home)
  = (Ok (JsonResponse (PBool false)), (tt, home),
     [EvGetPlayer "ghost";
      EvLogError "Received command for non-existing player ghost"])
  /\ ws_command env "ghost" "pause" None (tt, home)
     = (Ok tt, (tt, home), [EvGetPlayer "ghost"])
  /\ capability_calls
       (trace_of (ws_command env "ghost" "__class__" None (tt, home))) = []
  /\ capability_calls
       (trace_of (json_rpc env
                    {| rpc_repr := "{'params': ['ghost', ['play']]}";
                       rpc_player_id := "ghost"; rpc_cmds := ["play"] |}
                    (tt, home))) = [].
Proof.
  destruct (unresolved_target_invokes_nothing env) as [Hrest [Hws [Hws' Hrpc]]].
  split; [|split; [|split]].
  - apply (Hrest unit
             {| mi_player_id := "ghost"; mi_cmd := "pause";
                mi_cmd_args := None |} tt home home).
    reflexivity.
  - apply (Hws unit "ghost" "pause" None tt home home); reflexivity.
  - apply (Hws' unit "ghost" "__class__" None tt home home); reflexivity.
  - apply (Hrpc unit
             {| rpc_repr := "{'params': ['ghost', ['play']]}";
                rpc_player_id := "ghost"; rpc_cmds := ["play"] |}
             tt home home).
    reflexivity.
Defined.

(** The websocket frame [players/ghost/cmd/pause], no player [ghost] being
    there: the session looks the player up and goes on; it logs nothing and
    writes nothing, so no outcome and no diagnostic records the id. *)
Lemma ws_unresolved_target_is_silent :
  find_player "ghost" home = None
  /\ parse_frame ghost_pause = Ok (Command "ghost" "pause" None)
  /\ on_text env ghost_pause (tt, home)
     = (Ok tt, (tt, home), [EvGetPlayer "ghost"])
  /\ sent (trace_of (on_text env ghost_pause (tt, home))) = []
  /\ ~ diagnosed "ghost" (trace_of (on_text env ghost_pause (tt, home))).
Proof.
  repeat split. intros [text [[] _]].
Qed.

Lemma unknown_command_invokes_nothing_witness :
  player_command env
    {| mi_player_id := "p1"; mi_cmd := "jump"; mi_cmd_args := None |}
    (tt, home)
  = (Ok (JsonResponse (PBool false)), (tt, home),
     [EvGetPlayer "p1";
      EvLogError "Received non-existing command jump for player Kitchen"])
  /\ ws_command env "p1" "jump" (Some "3") (tt, home)
     = (Ok tt, (tt, home), [EvGetPlayer "p1"]).
Proof.
  destruct (unknown_command_invokes_nothing env) as [Hrest Hws]. split.
  - apply (Hrest unit
             {| mi_player_id := "p1"; mi_cmd := "jump"; mi_cmd_args := None |}
             tt home p1 home); reflexivity.
  - apply (Hws unit "p1" "jump" (Some "3") tt home p1 home); reflexivity.
Defined.

(** The websocket frame [players/p1/cmd/jump], the player [p1] being there
    and having no attribute [jump]: nothing is logged and nothing written. *)
Lemma ws_unknown_command_is_silent :
  find_player "p1" home = Some p1
  /\ capability env home (Some p1) "jump" = None
  /\ on_text env "players/p1/cmd/jump" (tt, home)
     = (Ok tt, (tt, home), [EvGetPlayer "p1"])
  /\ diagnostics (trace_of (on_text env "players/p1/cmd/jump" (tt, home)))
     = [].
Proof. repeat split. Qed.

Lemma invocation_failure_propagates_witness :
  player_command env
    {| mi_player_id := "p1"; mi_cmd := "volume_set"; mi_cmd_args := None |}
    (tt, home)
  = (Raise TypeError, (tt, home),
     [EvGetPlayer "p1"; EvCall (Some p1) "volume_set" []])
  /\ ws_loop env
       [WsMsg TEXT "players/p1/cmd/volume_set/loud"; WsMsg TEXT "players"]
       (tt, home)
     = (Raise ValueError, (tt, home),
        [EvGetPlayer "p1"; EvCall (Some p1) "volume_set" [PStr "loud"]])
  /\ result_of
       (websocket_handler env [WsMsg TEXT "players/p1/cmd/volume_set"]
          (None, home))
     = Raise TypeError.
Proof.
  destruct (invocation_failure_propagates env) as [Hrest [Hloop Hws]].
  split; [|split].
  - apply (Hrest unit
             {| mi_player_id := "p1"; mi_cmd := "volume_set";
                mi_cmd_args := None |}
             tt home p1 home (Method "volume_set") TypeError home);
      reflexivity.
  - apply (Hloop unit "players/p1/cmd/volume_set/loud" [WsMsg TEXT "players"]
             "p1" "volume_set" (Some "loud") tt home (Some p1) home
             (Method "volume_set") ValueError home); reflexivity.
  - apply (Hws [WsMsg TEXT "players/p1/cmd/volume_set"] home home 0
             (snd (register home)) TypeError); reflexivity.
Defined.

(** A session that receives [players/p1/cmd/volume_set] (the argument is
    missing) and then [players]: the invocation raises, the session ends
    with that exception, and the second frame is never answered. *)
Lemma ws_failing_invocation_ends_the_session :
  let o := websocket_handler env
             [WsMsg TEXT "players/p1/cmd/volume_set"; WsMsg TEXT "players"]
             (None, home) in
  result_of o = Raise TypeError
  /\ trace_of o
     = [EvPrepare; EvAddListener; EvGetPlayer "p1";
        EvCall (Some p1) "volume_set" []; EvRemoveListener (Some 0)]
  /\ sent (trace_of o) = [].
Proof. repeat split. Qed.

Lemma ws_writes_back_only_the_listing_witness :
  sent (trace_of (on_text env "players/p1/cmd/volume_set/42" (tt, home))) = []
  /\ sent (trace_of (on_text env "players" (tt, home)))
     = [{| message := "players"; message_details := DPlayers [p2; p1] |}].
Proof.
  destruct (ws_writes_back_only_the_listing env) as [Hcmd Hlist]. split.
  - apply (Hcmd unit "players/p1/cmd/volume_set/42" "p1" "volume_set"
             (Some "42") (tt, home)); reflexivity.
  - apply (Hlist unit (tt, home)).
Defined.

(** The frame [players/p1/cmd/pause]: [pause] is invoked and returns, and
    nothing is written to the websocket. *)
Lemma ws_command_result_is_not_written_back :
  parse_frame "players/p1/cmd/pause" = Ok (Command "p1" "pause" None)
  /\ call env (Method "pause") [] home = (Ok (PBool true), home)
  /\ on_text env "players/p1/cmd/pause" (tt, home)
     = (Ok tt, (tt, home), [EvGetPlayer "p1"; EvCall (Some p1) "pause" []])
  /\ sent (trace_of (on_text env "players/p1/cmd/pause" (tt, home))) = [].
Proof. repeat split. Qed.

Lemma ws_drops_frames_that_are_no_command_witness :
  parse_frame "foo" = Ok NotACommand
  /\ forall rest,
       ws_loop env (WsMsg TEXT "foo" :: rest) (tt, home)
       = ws_loop env rest (tt, home).
Proof.
  destruct (ws_drops_frames_that_are_no_command env (data:="foo"))
    as [Hp Hloop].
  - discriminate.
  - reflexivity.
  - split; [exact Hp|]. intros rest. apply Hloop.
Defined.

(** The frame [foo]: one token, no marker; the session writes no reply. *)
Lemma ws_malformed_frame_gets_no_reply :
  length (PyStr.split "/" "foo") < 4
  /\ on_text env "foo" (tt, home) = (Ok tt, (tt, home), [])
  /\ sent (trace_of (on_text env "foo" (tt, home))) = [].
Proof. repeat split. simpl. lia. Qed.

Lemma legacy_phrases_answered_witness :
  all_calls
    (trace_of (json_rpc env
                 {| rpc_repr := ""; rpc_player_id := "p1";
                    rpc_cmds := ["mixer"; "muting"; "1"] |} (tt, home)))
  = [(Some p1, "volume_mute", [PBool true])]
  /\ json_rpc env
       {| rpc_repr := ""; rpc_player_id := "p1";
          rpc_cmds := ["mixer"; "volume"; "37"] |} (tt, home)
     = (Ok (TextResponse "success"), (tt, home),
        [EvLogDebug "jsonrpc: "; EvGetPlayer "p1";
         EvCall (Some p1) "volume_set" [PStr "37"]])
  /\ json_rpc env
       {| rpc_repr := ""; rpc_player_id := "p1"; rpc_cmds := ["foobar"] |}
       (tt, home)
     = (Ok (TextResponse "command not supported"), (tt, home),
        [EvLogDebug "jsonrpc: "; EvGetPlayer "p1"]).
Proof.
  destruct (legacy_phrases_answered env) as [Hex [Hyes Hno]].
  split; [|split].
  - apply (Hex unit
             {| rpc_repr := ""; rpc_player_id := "p1";
                rpc_cmds := ["mixer"; "muting"; "1"] |}
             tt home p1 home "volume_mute" [PBool true]
             (Method "volume_mute")); [reflexivity|reflexivity|].
    simpl. auto.
  - apply (Hyes unit
             {| rpc_repr := ""; rpc_player_id := "p1";
                rpc_cmds := ["mixer"; "volume"; "37"] |}
             tt home p1 home "volume_set" [PStr "37"]
             (Method "volume_set") (PBool true) home); reflexivity.
  - apply (Hno unit
             {| rpc_repr := ""; rpc_player_id := "p1";
                rpc_cmds := ["foobar"] |}
             tt home (Some p1) home); reflexivity.
Defined.

(** The words [mixer volume loud] for the player [p1]: the phrase has a
    branch, [volume_set] raises, and the request is not answered
    [success]. *)
Lemma legacy_phrase_with_failing_call_is_not_answered :
  let request := {| rpc_repr := ""; rpc_player_id := "p1";
                    rpc_cmds := ["mixer"; "volume"; "loud"] |} in
  recognized (rpc_cmds request) = true
  /\ find_player "p1" home = Some p1
  /\ json_rpc env request (tt, home)
     = (Raise ValueError, (tt, home),
        [EvLogDebug "jsonrpc: "; EvGetPlayer "p1";
         EvCall (Some p1) "volume_set" [PStr "loud"]])
  /\ result_of (json_rpc env request (tt, home))
     <> Ok (TextResponse "success").
Proof. repeat split. discriminate. Qed.

Lemma ws_argument_only_when_fifth_token_nonempty_witness :
  (exists a,
      length (PyStr.split "/" "players/p1/cmd/volume_set/42") = 5
      /\ nth_error (PyStr.split "/" "players/p1/cmd/volume_set/42") 4 = Some a
      /\ a <> "" /\ [PStr "42"] = [PStr a])
  /\ all_calls
       (trace_of (on_text env "players/p1/cmd/volume_set/" (tt, home)))
     = [(Some p1, "volume_set", [])]
  /\ all_calls
       (trace_of (on_text env "players/p1/cmd/volume_set/4/2" (tt, home)))
     = [(Some p1, "volume_set", [])]
  /\ all_calls
       (trace_of (player_command env
                    {| mi_player_id := "p1"; mi_cmd := "volume_set";
                       mi_cmd_args := Some "" |} (tt, home)))
     = [(Some p1, "volume_set", [PStr ""])].
Proof.
  destruct (ws_argument_only_when_fifth_token_nonempty env)
    as [Honly [Hnone Hrest]].
  split; [|split; [|split]].
  - apply (Honly unit "players/p1/cmd/volume_set/42" (tt, home) (Some p1)
             "volume_set" [PStr "42"]).
    + simpl. auto.
    + discriminate.
  - apply (Hnone unit "players/p1/cmd/volume_set/" "p1" "volume_set"
             (Some "") tt home (Some p1) home (Method "volume_set"));
      try reflexivity. right. reflexivity.
  - apply (Hnone unit "players/p1/cmd/volume_set/4/2" "p1" "volume_set"
             None tt home (Some p1) home (Method "volume_set"));
      try reflexivity. left. simpl. lia.
  - apply (Hrest unit
             {| mi_player_id := "p1"; mi_cmd := "volume_set";
                mi_cmd_args := Some "" |}
             tt home p1 home (Method "volume_set") ""); reflexivity.
Defined.

Lemma ws_early_failure_unregisters_none_witness :
  let o := websocket_handler env [WsMsg TEXT "players"] (None, offline) in
  unregister_calls (trace_of o) = [None]
  /\ all_calls (trace_of o) = []
  /\ result_of o = Raise ConnectionError.
Proof.
  apply (ws_early_failure_unregisters_none env [WsMsg TEXT "players"]
           offline (w':=offline) (e:=ConnectionError)).
  left. reflexivity.
Defined.

End Runs.

(** ** The other handlers on the small installation *)

Module MoreRuns.

Import Demo.

Lemma ws_registers_once_after_handshake_witness :
  let tr := trace_of (websocket_handler env [WsMsg TEXT "players"]
                        (None, offline)) in
  lookups tr = [] /\ sent tr = [] /\ all_calls tr = [].
Proof.
  destruct (ws_registers_once_after_handshake env [WsMsg TEXT "players"]
              offline) as [_ [_ H]].
  apply H. reflexivity.
Defined.

Lemma ws_closing_line_iff_clean_end_witness :
  In (EvLogDebug "websocket connection closed")
    (trace_of (websocket_handler env [WsMsg TEXT "players"] (None, home))).
Proof.
  apply (proj1 (ws_closing_line_iff_clean_end env [WsMsg TEXT "players"]
                  home)).
  reflexivity.
Defined.

Lemma parse_frame_raises_only_when_short_witness :
  (IndexError = IndexError
   /\ length (PyStr.split "/" "players/cmd/") < 4
   /\ PyStr.startswith "players/cmd/" "players" = true
   /\ PyStr.contains "/cmd/" "players/cmd/" = true)
  /\ exists fr, parse_frame "players/p1/cmd/pause/now/please" = Ok fr.
Proof.
  split.
  - apply (proj1 (parse_frame_raises_only_when_short "players/cmd/")).
    reflexivity.
  - apply (proj2 (parse_frame_raises_only_when_short
                    "players/p1/cmd/pause/now/please")).
    simpl. lia.
Defined.

Lemma parse_frame_of_command_witness :
  parse_frame "players/p1/cmd/volume_set"
  = Ok (Command "p1" "volume_set" None)
  /\ parse_frame "players/p1/cmd/volume_set/42"
     = Ok (Command "p1" "volume_set" (Some "42")).
Proof.
  destruct (@parse_frame_of_command "p1" "volume_set" eq_refl eq_refl)
    as [Hnone Hsome].
  split; [exact Hnone|]. apply (Hsome "42"). reflexivity.
Defined.

Lemma json_rpc_calls_one_known_method_witness :
  In "volume_mute" rpc_methods /\ "volume_mute" <> "power_toggle"
  /\ length [PBool true] <= 1.
Proof.
  destruct (json_rpc_calls_one_known_method env DemoApi.mute_request (tt, home))
    as [_ H].
  apply (H (Some p1) "volume_mute" [PBool true]). simpl. auto.
Defined.

Lemma json_rpc_answers_one_of_two_texts_witness :
  TextResponse "success"
  = TextResponse (if recognized (rpc_cmds DemoApi.mute_request) then "success"
                  else "command not supported").
Proof.
  apply (@json_rpc_answers_one_of_two_texts _ _ _ _ env unit DemoApi.mute_request
           (tt, home)).
  reflexivity.
Defined.

Lemma player_command_answers_the_value_witness :
  player_command env
    {| mi_player_id := "p1"; mi_cmd := "volume_set";
       mi_cmd_args := Some "42" |} (tt, home)
  = (Ok (JsonResponse (PBool true)), (tt, home),
     [EvGetPlayer "p1"; EvCall (Some p1) "volume_set" [PStr "42"]]).
Proof.
  apply (@player_command_answers_the_value _ _ _ _ env unit
           {| mi_player_id := "p1"; mi_cmd := "volume_set";
              mi_cmd_args := Some "42" |}
           tt home p1 home (Method "volume_set") (PBool true) home);
    reflexivity.
Defined.

Lemma search_media_types_witness :
  In Search.Track
    (Search.media_types
       (Search.search [("query", "abba"); ("media_types", "tracks,artists")])).
Proof.
  destruct (search_media_types
              [("query", "abba"); ("media_types", "tracks,artists")])
    as [_ [H _]].
  apply (H Search.Track). reflexivity.
Defined.

Lemma Web_init_fails_on_missing_file_witness :
  (exists web, Startup.Web_init DemoApi.isfile DemoApi.tls_config
               = Startup.Created web)
  /\ Startup.Web_init DemoApi.isfile DemoApi.broken_config
     = Startup.FileNotFoundError
         "SSL certificate file not found: /nowhere/cert.pem".
Proof.
  split.
  - apply (proj1 (Web_init_fails_on_missing_file DemoApi.isfile DemoApi.tls_config)).
    split; right; reflexivity.
  - apply (proj2 (Web_init_fails_on_missing_file DemoApi.isfile
                    DemoApi.broken_config)); [discriminate|reflexivity].
Defined.

Lemma https_site_needs_certificate_and_key_witness :
  Startup.sites DemoApi.tls_web
  = [Startup.HttpSite 8095;
     Startup.HttpsSite 8096 "/etc/ssl/cert.pem" "/etc/ssl/key.pem"]
  /\ (true = true ->
      DemoApi.isfile "/etc/ssl/cert.pem" = true
      /\ DemoApi.isfile "/etc/ssl/key.pem" = true).
Proof.
  apply (@https_site_needs_certificate_and_key DemoApi.isfile
           DemoApi.tls_config DemoApi.tls_web).
  reflexivity.
Defined.

Lemma save_config_read_back_witness :
  (exists v,
      Config.lookup DemoApi.saved_settings "web" "http_port" = Config.Returned v
      /\ (v = PInt 81 \/ DemoApi.py_eq v (PInt 81) = true))
  /\ forall k sk, k <> "web" \/ sk <> "http_port" ->
                  Config.lookup DemoApi.saved_settings k sk
                  = Config.lookup DemoApi.settings k sk.
Proof.
  apply (@save_config_read_back pyval DemoApi.py_eq DemoApi.str
           DemoApi.disk_ok "web" "http_port" (PInt 81) DemoApi.settings
           DemoApi.port_changed DemoApi.saved_settings
           [DemoApi.port_log; Config.Save DemoApi.saved_settings]).
  reflexivity.
Defined.

Lemma save_config_restart_rule_witness :
  Config.success DemoApi.port_changed = true
  /\ Config.restart_required DemoApi.port_changed
     = Config.settings_changed DemoApi.port_changed
       && negb ("web" =? "player_settings")
  /\ (Config.settings_changed DemoApi.port_changed = false ->
      DemoApi.saved_settings = DemoApi.settings).
Proof.
  apply (@save_config_restart_rule pyval DemoApi.py_eq DemoApi.str
           DemoApi.disk_ok "web" "http_port" (Ok (PInt 81)) DemoApi.settings
           DemoApi.port_changed DemoApi.saved_settings
           [DemoApi.port_log; Config.Save DemoApi.saved_settings]).
  reflexivity.
Defined.

Lemma save_config_twice_witness :
  exists log,
    Config.save_config DemoApi.py_eq DemoApi.str DemoApi.disk_ok
      "web" "http_port" (Ok (PInt 81)) DemoApi.saved_settings
    = (Config.Returned {| Config.success := true;
                          Config.restart_required := false;
                          Config.settings_changed := false |},
       DemoApi.saved_settings, [log]).
Proof.
  apply (@save_config_twice pyval DemoApi.py_eq DemoApi.str
           DemoApi.disk_ok "web" "http_port" (PInt 81) DemoApi.settings
           DemoApi.port_changed DemoApi.saved_settings
           [DemoApi.port_log; Config.Save DemoApi.saved_settings]);
    reflexivity.
Defined.

Lemma save_config_failed_save_is_not_retried_witness :
  Config.lookup DemoApi.saved_settings "web" "http_port"
  = Config.Returned (PInt 81)
  /\ exists log,
       Config.save_config DemoApi.py_eq DemoApi.str DemoApi.disk_full
         "web" "http_port" (Ok (PInt 81)) DemoApi.saved_settings
       = (Config.Returned {| Config.success := true;
                             Config.restart_required := false;
                             Config.settings_changed := false |},
          DemoApi.saved_settings, [log]).
Proof.
  apply (@save_config_failed_save_is_not_retried pyval DemoApi.py_eq
           DemoApi.str DemoApi.disk_full "web" "http_port" (PInt 81)
           DemoApi.settings ConnectionError DemoApi.saved_settings
           [DemoApi.port_log; Config.Save DemoApi.saved_settings]);
    reflexivity.
Defined.

Lemma player_queue_page_witness :
  exists page,
    player_queue env DemoApi.queue_items DemoApi.py_int "p1" DemoApi.page_query
      (tt, home)
    = (Ok page, (tt, home), [EvGetPlayer "p1"])
    /\ (exists pre post, [1; 2; 3; 4; 5] = pre ++ page ++ post)
    /\ ((0 <= 1)%Z -> (0 <= 3)%Z -> length page <= Z.to_nat (3 - 1))
    /\ (1%Z = 0%Z -> (0 <= 3)%Z -> page = firstn (Z.to_nat 3) [1; 2; 3; 4; 5]).
Proof.
  apply (@player_queue_page _ _ _ _ env nat DemoApi.queue_items
           DemoApi.py_int unit "p1" DemoApi.page_query tt home p1 home 3%Z 1%Z);
    reflexivity.
Defined.

Lemma player_queue_second_page_is_empty_witness :
  player_queue env DemoApi.queue_items DemoApi.py_int "p1"
    [("offset", "50")] (tt, home)
  = (Ok [], (tt, home), [EvGetPlayer "p1"]).
Proof.
  apply (@player_queue_second_page_is_empty _ _ _ _ env nat
           DemoApi.queue_items DemoApi.py_int unit "p1" [("offset", "50")]
           tt home p1 home 50%Z); first [reflexivity|lia].
Defined.

Lemma player_queue_errors_witness :
  (ValueError = ValueError
   /\ player_queue env DemoApi.queue_items DemoApi.py_int "p1"
        [("limit", "ten")] (tt, home)
      = (Raise ValueError, (tt, home), []))
  /\ player_queue env DemoApi.queue_items DemoApi.py_int "ghost" DemoApi.page_query
       (tt, home)
     = (Raise AttributeError, (tt, home), [EvGetPlayer "ghost"]).
Proof.
  split.
  - destruct (@player_queue_errors _ _ _ _ env nat DemoApi.queue_items
                DemoApi.py_int unit "p1" [("limit", "ten")] tt home)
      as [H _].
    apply (H ValueError). reflexivity.
  - destruct (@player_queue_errors _ _ _ _ env nat DemoApi.queue_items
                DemoApi.py_int unit "ghost" DemoApi.page_query tt home)
      as [_ [_ H]].
    apply (H 3%Z 1%Z home); reflexivity.
Defined.

End MoreRuns.
